(** * VariableSizeList: the lazily measured item metadata cache of react-window

    A shallow embedding of [src/VariableSizeList.js] (the current variant of
    the file, the one written in terms of items and [itemCount]) and the
    properties of its windowing engine: the metadata store with its
    watermark [lastMeasuredIndex], the offset locator (binary and exponential
    search), the window calculator and the alignment planner.

    Numbers are integer pixels and integer indices ([Z]); the only place where
    the source leaves the integers is the halving under [Math.round], which is
    computed over [Q]. *)

From Stdlib Require Import ZArith QArith Qround Lia Lqa.
From stdpp Require Import base option gmap strings.
From Equations Require Import Equations.

Local Open Scope Z_scope.

(** ** Data model *)

(** [type ItemMetadata = {| offset: number, size: number |}] *)
Record ItemMetadata : Type := mkItemMetadata {
  offset : Z;
  size : Z;
}.

(** [type InstanceProps]: the metadata map is a JS object used as a sparse map
    from index to metadata. *)
Record InstanceProps : Type := mkInstanceProps {
  itemMetadataMap : gmap Z ItemMetadata;
  estimatedItemSize : Z;
  lastMeasuredIndex : Z;
}.

Inductive Direction : Type := horizontal | vertical.

(** The part of [Props] that this file reads. *)
Record Props : Type := mkProps {
  direction : Direction;
  height : Z;
  width : Z;
  itemCount : Z;
  itemSize : Z -> Z;
}.

(** [ScrollToAlign]; any other string takes the [default:] branch, which is the
    ['auto'] one. *)
Inductive ScrollToAlign : Type :=
  | AlignAuto | AlignStart | AlignCenter | AlignEnd | AlignOther.

Definition DEFAULT_ESTIMATED_ITEM_SIZE : Z := 50.

(** ** Effects

    The instance properties are one shared mutable object; every exported
    function receives it and mutates it in place.  A computation therefore
    maps the heap before to a completion and the heap after, and a [throw]
    keeps the mutations made so far.  The heap also records, as a ghost log,
    the indices at which the user's [itemSize] callback was invoked (most
    recent first), which is what the test-suite observes with
    [toHaveBeenCalledTimes]. *)

Inductive Error : Type := TypeError.

Inductive Completion (A : Type) : Type :=
  | Normal (a : A)
  | Throw (e : Error).
Arguments Normal {A} a.
Arguments Throw {A} e.

Record Heap : Type := mkHeap {
  inst : InstanceProps;
  itemSizeCalls : list Z;
}.

Definition M (A : Type) : Type := Heap -> Completion A * Heap.

Definition ret {A} (a : A) : M A := fun h => (Normal a, h).

Definition bind {A B} (c : M A) (k : A -> M B) : M B :=
  fun h =>
    match c h with
    | (Normal a, h') => k a h'
    | (Throw e, h') => (Throw e, h')
    end.

Definition throw {A} (e : Error) : M A := fun h => (Throw e, h).

Declare Scope js_scope.
Delimit Scope js_scope with js.
Notation "x <- c ;; k" := (bind c (fun x => k))
  (at level 90, c at level 80, right associativity) : js_scope.
Notation "c ;;; k" := (bind c (fun _ => k))
  (at level 90, right associativity) : js_scope.
Local Open Scope js_scope.

(** [instanceProps.lastMeasuredIndex] *)
Definition readLastMeasuredIndex : M Z :=
  fun h => (Normal (lastMeasuredIndex (inst h)), h).

(** [instanceProps.lastMeasuredIndex = v] *)
Definition writeLastMeasuredIndex (v : Z) : M unit :=
  fun h =>
    (Normal tt,
     mkHeap (mkInstanceProps (itemMetadataMap (inst h))
                             (estimatedItemSize (inst h)) v)
            (itemSizeCalls h)).

(** [itemMetadataMap[index]]: [undefined] (here [None]) on a missing key. *)
Definition readEntry (index : Z) : M (option ItemMetadata) :=
  fun h => (Normal (itemMetadataMap (inst h) !! index), h).

(** [itemMetadataMap[index] = m] *)
Definition writeEntry (index : Z) (m : ItemMetadata) : M unit :=
  fun h =>
    (Normal tt,
     mkHeap (mkInstanceProps (<[index := m]> (itemMetadataMap (inst h)))
                             (estimatedItemSize (inst h))
                             (lastMeasuredIndex (inst h)))
            (itemSizeCalls h)).

(** Reading a property ([.offset], [.size]) of a value that may be
    [undefined] throws a [TypeError] when it is. *)
Definition defined {A} (v : option A) : M A :=
  match v with
  | Some a => ret a
  | None => throw TypeError
  end.

(** [itemSize(i)], logged. *)
Definition callItemSize (props : Props) (i : Z) : M Z :=
  fun h => (Normal (itemSize props i), mkHeap (inst h) (i :: itemSizeCalls h)).

(** ** getItemMetadata *)

(** The body of [for (let i = ...; i <= index; i++)], run [n] more times from
    [i] with the running [offset]. *)
Fixpoint measureFrom (props : Props) (n : nat) (i : Z) (offset : Z) : M unit :=
  match n with
  | O => ret tt
  | S n' =>
      size <- callItemSize props i ;;
      writeEntry i (mkItemMetadata offset size) ;;;
      measureFrom props n' (i + 1) (offset + size)
  end.

Definition getItemMetadata (props : Props) (index : Z)
  : M (option ItemMetadata) :=
  lastMeasuredIndex <- readLastMeasuredIndex ;;
  (if index >? lastMeasuredIndex then
     offset <- (if lastMeasuredIndex >=? 0 then
                  itemMetadata <- bind (readEntry lastMeasuredIndex) defined ;;
                  ret (offset itemMetadata + size itemMetadata)
                else ret 0) ;;
     (* i runs over lastMeasuredIndex + 1 .. index: index - lastMeasuredIndex
        iterations *)
     measureFrom props (Z.to_nat (index - lastMeasuredIndex))
                 (lastMeasuredIndex + 1) offset ;;;
     writeLastMeasuredIndex index
   else ret tt) ;;;
  readEntry index.

(** ** The offset locator *)

(** [while (low <= high) { ... }] of [findNearestItemBinarySearch].  The
    interval [high - low + 1] shrinks with every iteration that does not
    return.  The three comparisons of the source are exhaustive over the
    integers. *)
Equations? findNearestItemBinarySearch
  (props : Props) (high low offset_ : Z) (h : Heap)
  : Completion Z * Heap by wf (Z.to_nat (high - low + 1)) lt :=
  findNearestItemBinarySearch props high low offset_ h
    with Z_le_gt_dec low high => {
    | left _ with getItemMetadata props (low + (high - low) / 2) h => {
      | (Normal (Some itemMetadata), h') =>
          if offset itemMetadata =? offset_ then
            (Normal (low + (high - low) / 2), h')
          else if offset itemMetadata <? offset_ then
            findNearestItemBinarySearch
              props high (low + (high - low) / 2 + 1) offset_ h'
          else
            findNearestItemBinarySearch
              props (low + (high - low) / 2 - 1) low offset_ h'
      | (Normal None, h') => (Throw TypeError, h')
      | (Throw e, h') => (Throw e, h') }
    | right _ => if low >? 0 then (Normal (low - 1), h) else (Normal 0, h) }.
Proof.
  all: assert (0 <= (high - low) / 2 <= high - low)
    by (split; [apply Z.div_pos | apply Z.div_le_upper_bound]; lia); lia.
Qed.

(** The [while] of [findNearestItemExponentialSearch]: [interval] is 1, 2, 4,
    ..., a positive number, so [index] moves towards [itemCount]. *)
Equations? exponentialProbe
  (props : Props) (index : Z) (interval : positive) (offset_ : Z) (h : Heap)
  : Completion Z * Heap by wf (Z.to_nat (itemCount props - index)) lt :=
  exponentialProbe props index interval offset_ h
    with Z_lt_ge_dec index (itemCount props) => {
    | left _ with getItemMetadata props index h => {
      | (Normal (Some itemMetadata), h') =>
          if offset itemMetadata <? offset_ then
            exponentialProbe
              props (index + Z.pos interval) (2 * interval)%positive offset_ h'
          else (Normal index, h')
      | (Normal None, h') => (Throw TypeError, h')
      | (Throw e, h') => (Throw e, h') }
    | right _ => (Normal index, h) }.
Proof. lia. Qed.

Definition findNearestItemExponentialSearch
  (props : Props) (index offset_ : Z) : M Z :=
  index' <- exponentialProbe props index 1%positive offset_ ;;
  findNearestItemBinarySearch
    props (Z.min index' (itemCount props - 1)) (index' / 2) offset_.

Definition findNearestItem (props : Props) (offset_ : Z) : M Z :=
  lastMeasuredIndex <- readLastMeasuredIndex ;;
  lastMeasuredItemOffset <-
    (if lastMeasuredIndex >? 0 then
       itemMetadata <- bind (readEntry lastMeasuredIndex) defined ;;
       ret (offset itemMetadata)
     else ret 0) ;;
  if lastMeasuredItemOffset >=? offset_ then
    findNearestItemBinarySearch props lastMeasuredIndex 0 offset_
  else
    findNearestItemExponentialSearch props lastMeasuredIndex offset_.

(** ** getEstimatedTotalSize *)

Definition getEstimatedTotalSize (props : Props) : M Z :=
  lastMeasuredIndex <- readLastMeasuredIndex ;;
  totalSizeOfMeasuredItems <-
    (if lastMeasuredIndex >=? 0 then
       itemMetadata <- bind (readEntry lastMeasuredIndex) defined ;;
       ret (offset itemMetadata + size itemMetadata)
     else ret 0) ;;
  fun h =>
    let numUnmeasuredItems := itemCount props - lastMeasuredIndex - 1 in
    let totalSizeOfUnmeasuredItems :=
      numUnmeasuredItems * estimatedItemSize (inst h) in
    (Normal (totalSizeOfMeasuredItems + totalSizeOfUnmeasuredItems), h).

(** ** The functions handed to createListComponent *)

Definition getItemOffset (props : Props) (index : Z) : M Z :=
  itemMetadata <- bind (getItemMetadata props index) defined ;;
  ret (offset itemMetadata).

(** [instanceProps.itemMetadataMap[index].size]: a bare read of the map. *)
Definition getItemSize (props : Props) (index : Z) : M Z :=
  itemMetadata <- bind (readEntry index) defined ;;
  ret (size itemMetadata).

(** [direction === 'horizontal' ? width : height] *)
Definition viewportSize (props : Props) : Z :=
  match direction props with
  | horizontal => width props
  | vertical => height props
  end.

(** [Math.round]: the nearest integer, halves rounded up. *)
Definition Math_round (x : Q) : Z := Qfloor (x + (1 # 2))%Q.

Definition getOffsetForIndexAndAlignment
  (props : Props) (index : Z) (align : ScrollToAlign) (scrollOffset : Z)
  : M Z :=
  let size_ := viewportSize props in
  itemMetadata <- bind (getItemMetadata props index) defined ;;
  estimatedTotalSize <- getEstimatedTotalSize props ;;
  let maxOffset := Z.min (estimatedTotalSize - size_) (offset itemMetadata) in
  let minOffset :=
    Z.max 0 (offset itemMetadata - size_ + size itemMetadata) in
  match align with
  | AlignStart => ret maxOffset
  | AlignEnd => ret minOffset
  | AlignCenter =>
      ret (Math_round
             (inject_Z minOffset + inject_Z (maxOffset - minOffset) / 2)%Q)
  | AlignAuto | AlignOther =>
      if (scrollOffset >=? minOffset) && (scrollOffset <=? maxOffset) then
        ret scrollOffset
      else if scrollOffset - minOffset <? maxOffset - scrollOffset then
        ret minOffset
      else ret maxOffset
  end.

Definition getStartIndexForOffset (props : Props) (offset_ : Z) : M Z :=
  findNearestItem props offset_.

(** The [while] of [getStopIndexForStartIndex]. *)
Equations? stopIndexLoop
  (props : Props) (maxOffset stopIndex offset_ : Z) (h : Heap)
  : Completion Z * Heap by wf (Z.to_nat (itemCount props - 1 - stopIndex)) lt :=
  stopIndexLoop props maxOffset stopIndex offset_ h
    with Z_lt_ge_dec stopIndex (itemCount props - 1) => {
    | left _ with offset_ <? maxOffset => {
      | true with getItemMetadata props (stopIndex + 1) h => {
        | (Normal (Some itemMetadata), h') =>
            stopIndexLoop props maxOffset (stopIndex + 1)
                          (offset_ + size itemMetadata) h'
        | (Normal None, h') => (Throw TypeError, h')
        | (Throw e, h') => (Throw e, h') }
      | false => (Normal stopIndex, h) }
    | right _ => (Normal stopIndex, h) }.
Proof. lia. Qed.

Definition getStopIndexForStartIndex
  (props : Props) (startIndex scrollOffset : Z) : M Z :=
  let size_ := viewportSize props in
  itemMetadata <- bind (getItemMetadata props startIndex) defined ;;
  let maxOffset := scrollOffset + size_ in
  stopIndexLoop props maxOffset startIndex
                (offset itemMetadata + size itemMetadata).

(** [estimatedItemSize || DEFAULT_ESTIMATED_ITEM_SIZE]: a missing or zero prop
    falls back to the default. *)
Definition initInstanceProps (estimatedItemSizeProp : option Z)
  : InstanceProps :=
  mkInstanceProps
    ∅
    (match estimatedItemSizeProp with
     | Some 0 | None => DEFAULT_ESTIMATED_ITEM_SIZE
     | Some e => e
     end)
    (-1).

Definition initHeap (estimatedItemSizeProp : option Z) : Heap :=
  mkHeap (initInstanceProps estimatedItemSizeProp) nil.

(** [instance.resetAfterIndex]; the style cache and the forced update belong to
    the rendering layer and are not part of the instance properties. *)
Definition resetAfterIndex (index : Z) : M unit :=
  lastMeasuredIndex <- readLastMeasuredIndex ;;
  writeLastMeasuredIndex (Z.min lastMeasuredIndex (index - 1)).

(** The older variant of the file (the one written in terms of cells and
    [count]) differs from the current one, beyond the renaming, only here: it
    assigns [index - 1] without the [Math.min]. *)
Module OlderVariant.
Definition resetAfterIndex (index : Z) : M unit :=
  writeLastMeasuredIndex (index - 1).
End OlderVariant.

(** ** validateProps

    The [itemSize] prop as it arrives, before anything is known about it: a
    JavaScript value, of which only the type matters here. *)

Inductive JSValue : Type :=
  | JSUndefined
  | JSNull
  | JSBoolean (b : bool)
  | JSNumber (n : Z)
  | JSString (s : string)
  | JSSymbol
  | JSObject
  | JSFunction (f : Z -> Z).

(** [typeof v] *)
Definition typeof (v : JSValue) : string :=
  match v with
  | JSUndefined => "undefined"
  | JSNull => "object"
  | JSBoolean _ => "boolean"
  | JSNumber _ => "number"
  | JSString _ => "string"
  | JSSymbol => "symbol"
  | JSObject => "object"
  | JSFunction _ => "function"
  end.

(** [v === null] *)
Definition isNull (v : JSValue) : bool :=
  match v with
  | JSNull => true
  | _ => false
  end.

(** The double quote character. *)
Definition dquote : string := String (Ascii.ascii_of_nat 34) EmptyString.

(** What [validateProps] does: return, or throw an [Error] with a message. *)
Inductive Validation : Type :=
  | Valid
  | ThrowsError (message : string).

(** [NODE_ENV] is [process.env.NODE_ENV], [None] when it is not set. *)
Definition validateProps (NODE_ENV : option string) (itemSize : JSValue)
  : Validation :=
  if negb (match NODE_ENV with
           | Some env => String.eqb env "production"
           | None => false
           end) then
    if negb (String.eqb (typeof itemSize) "function") then
      ThrowsError
        (("An invalid " +:+ dquote +:+ "itemSize" +:+ dquote
          +:+ " prop has been specified. ")
         +:+ "Value should be a function. "
         +:+ (dquote
              +:+ (if isNull itemSize then "null" else typeof itemSize)
              +:+ dquote +:+ " was specified."))%string
    else Valid
  else Valid.

(** ** Specification vocabulary *)

(** [sumBelow f n] is [f 0 + ... + f (n - 1)]. *)
Fixpoint sumBelow (f : Z -> Z) (n : nat) : Z :=
  match n with
  | O => 0
  | S k => sumBelow f k + f (Z.of_nat k)
  end.

Definition sumZ (f : Z -> Z) (i : Z) : Z := sumBelow f (Z.to_nat i).

(** The size stored for item [j] (0 when the map has no entry). *)
Definition storedSize (ip : InstanceProps) (j : Z) : Z :=
  match itemMetadataMap ip !! j with
  | Some m => size m
  | None => 0
  end.

(** The sum of the stored sizes of items [0 .. i-1]. *)
Definition storedPrefix (ip : InstanceProps) (i : Z) : Z :=
  sumZ (storedSize ip) i.

(** The invariant of the metadata store: the watermark is at least -1 and
    every item up to it has an entry, of positive size, whose offset is the
    sum of the stored sizes before it. *)
Definition wf (ip : InstanceProps) : Prop :=
  -1 <= lastMeasuredIndex ip /\
  forall i, 0 <= i <= lastMeasuredIndex ip ->
    exists m, itemMetadataMap ip !! i = Some m /\
              0 < size m /\
              offset m = storedPrefix ip i.

(** The same invariant as a check that runs: [entriesOk ip n] inspects the
    items [0 .. n-1]. *)
Fixpoint entriesOk (ip : InstanceProps) (n : nat) : bool :=
  match n with
  | O => true
  | S k =>
      entriesOk ip k &&
      match itemMetadataMap ip !! Z.of_nat k with
      | Some m => (0 <? size m) && (offset m =? storedPrefix ip (Z.of_nat k))
      | None => false
      end
  end.

Definition wfb (ip : InstanceProps) : bool :=
  (-1 <=? lastMeasuredIndex ip) &&
  entriesOk ip (Z.to_nat (lastMeasuredIndex ip + 1)).

(** [sizeOf] returns a positive number at every item index. *)
Definition positiveSizes (props : Props) : Prop :=
  forall i, 0 <= i -> 0 < itemSize props i.

(** The exact size and offset of item [j] as seen from a state: the cached
    size up to the watermark, the current [itemSize] beyond it. *)
Definition sizeAt (props : Props) (ip : InstanceProps) (j : Z) : Z :=
  if j <=? lastMeasuredIndex ip then storedSize ip j else itemSize props j.

Definition offsetAt (props : Props) (ip : InstanceProps) (i : Z) : Z :=
  sumZ (sizeAt props ip) i.

Definition metadataAt (props : Props) (ip : InstanceProps) (i : Z)
  : ItemMetadata :=
  mkItemMetadata (offsetAt props ip i) (sizeAt props ip i).

(** [h'] continues [h]: it is well formed, has measured at least as far,
    keeps the entries up to the old watermark and beyond the new one, and
    every item has the same exact size in both. *)
Definition extends (props : Props) (h h' : Heap) : Prop :=
  wf (inst h') /\
  lastMeasuredIndex (inst h) <= lastMeasuredIndex (inst h') /\
  estimatedItemSize (inst h') = estimatedItemSize (inst h) /\
  (forall j, j <= lastMeasuredIndex (inst h) ->
     itemMetadataMap (inst h') !! j = itemMetadataMap (inst h) !! j) /\
  (forall j, lastMeasuredIndex (inst h') < j ->
     itemMetadataMap (inst h') !! j = itemMetadataMap (inst h) !! j) /\
  (forall j, 0 <= j -> sizeAt props (inst h') j = sizeAt props (inst h) j).

(** Indices [i, i+1, ..., i+n-1], last first: the order in which the log
    receives them. *)
Fixpoint loggedRange (i : Z) (n : nat) : list Z :=
  match n with
  | O => nil
  | S k => loggedRange (i + 1) k ++ (i :: nil)
  end.

(** A computation continues the state: whatever its arguments and however it
    completes, from a well-formed state it leaves one that [extends] it. *)
Definition continues (props : Props) {A} (c : M A) : Prop :=
  forall h, wf (inst h) -> extends props h (snd (c h)).

(** ** Calls and reachable states *)

Inductive Call : Type :=
  | GetMetadata (index : Z)
  | FindIndexForOffset (offset_ : Z)
  | FindStopIndex (startIndex scrollOffset : Z)
  | GetOffsetForAlignment (index : Z) (align : ScrollToAlign)
                          (scrollOffset : Z)
  | InvalidateAfter (index : Z).

(** The state a call leaves behind, however it completes. *)
Definition perform (props : Props) (c : Call) (h : Heap) : Heap :=
  match c with
  | GetMetadata index => snd (getItemMetadata props index h)
  | FindIndexForOffset offset_ => snd (getStartIndexForOffset props offset_ h)
  | FindStopIndex startIndex scrollOffset =>
      snd (getStopIndexForStartIndex props startIndex scrollOffset h)
  | GetOffsetForAlignment index align scrollOffset =>
      snd (getOffsetForIndexAndAlignment props index align scrollOffset h)
  | InvalidateAfter index => snd (resetAfterIndex index h)
  end.

(** Invalidation is asked for at an item index, which is zero-based. *)
Definition admissible (c : Call) : Prop :=
  match c with
  | InvalidateAfter index => 0 <= index
  | _ => True
  end.

Definition measures (c : Call) : Prop :=
  match c with
  | InvalidateAfter _ => False
  | _ => True
  end.

(** States reached from a fresh instance by calls that satisfy [allowed];
    the props (and so [itemSize]) may differ from call to call, as they do
    between renders. *)
Inductive reachableBy (allowed : Call -> Prop) : Heap -> Prop :=
  | reachable_init (estimatedItemSizeProp : option Z) :
      reachableBy allowed (initHeap estimatedItemSizeProp)
  | reachable_step (props : Props) (c : Call) (h : Heap) :
      reachableBy allowed h -> positiveSizes props -> allowed c ->
      reachableBy allowed (perform props c h).

Definition reachable : Heap -> Prop := reachableBy admissible.

(** Reachable without any invalidation. *)
Definition reachableByMeasuring : Heap -> Prop := reachableBy measures.

(** Reachable by any sequence of the five calls, whatever their arguments. *)
Definition anyCall (c : Call) : Prop := True.

Definition reachableByAnyCalls : Heap -> Prop := reachableBy anyCall.

(** [r] is the integer nearest to [x], a half rounded up: the value
    [Math.round] is specified to return. *)
Definition nearestIntegerHalfUp (x : Q) (r : Z) : Prop :=
  (inject_Z r - (1 # 2) <= x /\ x < inject_Z r + (1 # 2))%Q.

(** No entry beyond the watermark. *)
Definition noStaleEntries (ip : InstanceProps) : Prop :=
  forall j, lastMeasuredIndex ip < j -> itemMetadataMap ip !! j = None.

(** ** Sample configurations *)

(** 100 items of 25 pixels, estimated at 50, in a viewport of 100. *)
Definition uniform25 : Props := mkProps vertical 100 50 100 (fun _ => 25).

(** The first five items measured. *)
Definition fiveMeasured : Heap :=
  perform uniform25 (GetMetadata 4) (initHeap (Some 50)).

(** The first render of that list without overscan: find the start index for
    offset 0, the stop index from it, then the offsets of the rendered items
    and of the one item of minimal overscan. *)
Definition firstRender : Heap :=
  perform uniform25 (GetMetadata 4)
    (perform uniform25 (FindStopIndex 0 0)
       (perform uniform25 (FindIndexForOffset 0) (initHeap (Some 50)))).

(** Two items measured, then everything after item 0 invalidated: item 1 is
    beyond the watermark and its entry is still in the map. *)
Definition invalidatedAfterOne : Heap :=
  perform uniform25 (InvalidateAfter 1)
    (perform uniform25 (GetMetadata 1) (initHeap None)).

(** A fresh instance invalidated at index -2, then item 0 measured. *)
Definition invalidatedAtMinusTwo : Heap :=
  perform uniform25 (GetMetadata 0)
    (perform uniform25 (InvalidateAfter (-2)) (initHeap None)).

(** A list of one item of 25 pixels. *)
Definition single25 : Props := mkProps vertical 100 50 1 (fun _ => 25).

(** An item twice as tall as the viewport. *)
Definition tallItem : Props := mkProps vertical 100 50 1 (fun _ => 200).

(** ** Further vocabulary *)

(** The log of [h'] is the log of [h] followed by one call of [itemSize] for
    each index from the watermark of [h] (excluded) to the watermark of [h']
    (included), in increasing order. *)
Definition measuredOnce (h h' : Heap) : Prop :=
  itemSizeCalls h' =
  loggedRange (lastMeasuredIndex (inst h) + 1)
              (Z.to_nat (lastMeasuredIndex (inst h')
                         - lastMeasuredIndex (inst h)))
  ++ itemSizeCalls h.

(** [h'] continues [h], has logged exactly the items it measured, and has not
    measured beyond [bound] unless [h] already had. *)
Definition measuredUpTo (props : Props) (bound : Z) (h h' : Heap) : Prop :=
  extends props h h' /\
  measuredOnce h h' /\
  lastMeasuredIndex (inst h') <= Z.max (lastMeasuredIndex (inst h)) bound.

(** The largest index a call may have to measure. *)
Definition measurementBound (props : Props) (c : Call) : Z :=
  match c with
  | GetMetadata index => index
  | FindIndexForOffset _ => itemCount props - 1
  | FindStopIndex startIndex _ => Z.max startIndex (itemCount props - 1)
  | GetOffsetForAlignment index _ _ => index
  | InvalidateAfter _ => -1
  end.

(** ** Sums *)

Lemma sumZ_0 f : sumZ f 0 = 0.
Proof. reflexivity. Qed.

Lemma sumZ_succ f i : 0 <= i -> sumZ f (i + 1) = sumZ f i + f i.
Proof.
  intros Hi. unfold sumZ.
  replace (Z.to_nat (i + 1)) with (S (Z.to_nat i)) by lia.
  simpl. now rewrite Z2Nat.id.
Qed.

Lemma sumZ_neg f i : i <= 0 -> sumZ f i = 0.
Proof.
  intros Hi. unfold sumZ. now replace (Z.to_nat i) with O by lia.
Qed.

Lemma sumZ_ext f g i :
  (forall k, 0 <= k < i -> f k = g k) -> sumZ f i = sumZ g i.
Proof.
  destruct (Z_lt_le_dec i 0) as [Hneg | Hpos].
  - intros _. rewrite !sumZ_neg by lia. reflexivity.
  - pattern i. apply natlike_ind; [| | exact Hpos].
    + reflexivity.
    + intros x Hx IH Hfg. unfold Z.succ. rewrite !sumZ_succ by lia.
      rewrite IH by (intros; apply Hfg; lia). rewrite Hfg by lia. reflexivity.
Qed.

Lemma sumZ_lt f i j :
  (forall k, 0 <= k -> 0 < f k) -> 0 <= i -> i < j -> sumZ f i < sumZ f j.
Proof.
  intros Hf Hi Hij. replace j with (i + 1 + (j - i - 1)) by lia.
  assert (Hd : 0 <= j - i - 1) by lia.
  generalize dependent (j - i - 1). intros d Hd. pattern d.
  apply natlike_ind; [| | exact Hd].
  - rewrite Z.add_0_r, sumZ_succ by lia. specialize (Hf i Hi). lia.
  - intros x Hx IH. replace (i + 1 + Z.succ x) with (i + 1 + x + 1) by lia.
    rewrite sumZ_succ by lia. specialize (Hf (i + 1 + x)). lia.
Qed.

Lemma sumZ_le f i j :
  (forall k, 0 <= k -> 0 < f k) -> 0 <= i -> i <= j -> sumZ f i <= sumZ f j.
Proof.
  intros Hf Hi Hij. destruct (Z.eq_dec i j) as [-> | Hne]; [lia |].
  apply Z.lt_le_incl, sumZ_lt; auto; lia.
Qed.

(** A sum over a function that follows [f1] below [a] and [f2] from [a] on. *)
Lemma sumZ_splice f f1 f2 a j :
  0 <= a <= j ->
  (forall k, 0 <= k < a -> f k = f1 k) ->
  (forall k, a <= k < j -> f k = f2 k) ->
  sumZ f j = sumZ f1 a + (sumZ f2 j - sumZ f2 a).
Proof.
  intros [Ha Haj] H1. replace j with (a + (j - a)) by lia.
  assert (Hd : 0 <= j - a) by lia.
  generalize dependent (j - a). intros d Hd. pattern d.
  apply natlike_ind; [| | exact Hd].
  - intros _. rewrite Z.add_0_r. rewrite (sumZ_ext f f1 a H1). lia.
  - intros x Hx IH H2. replace (a + Z.succ x) with (a + x + 1) by lia.
    rewrite !sumZ_succ by lia. rewrite IH by (intros; apply H2; lia).
    rewrite H2 by lia. lia.
Qed.

(** ** The invariant, checked *)

Lemma entriesOk_spec ip n :
  entriesOk ip n = true <->
  forall i, 0 <= i < Z.of_nat n ->
    exists m, itemMetadataMap ip !! i = Some m /\
              0 < size m /\
              offset m = storedPrefix ip i.
Proof.
  induction n as [| n IH].
  - split; [intros _ i Hi; lia | reflexivity].
  - cbn [entriesOk]. rewrite andb_true_iff, IH. split.
    + intros [Hbelow Hlast] i Hi.
      destruct (Z.eq_dec i (Z.of_nat n)) as [-> | Hne];
        [| apply Hbelow; lia].
      destruct (itemMetadataMap ip !! Z.of_nat n) as [m |];
        [| discriminate].
      apply andb_true_iff in Hlast as [Hs Ho].
      exists m. split; [reflexivity |]. split; lia.
    + intros Hall. split; [intros i Hi; apply Hall; lia |].
      destruct (Hall (Z.of_nat n) ltac:(lia)) as (m & -> & Hs & Ho).
      apply andb_true_iff. split; lia.
Qed.

Lemma wfb_spec ip : wfb ip = true <-> wf ip.
Proof.
  unfold wfb, wf. rewrite andb_true_iff, entriesOk_spec, Z.leb_le.
  split; intros [HL Hent]; (split; [exact HL |]); intros i Hi;
    apply Hent; lia.
Qed.

(** ** The lazy measurer *)

Lemma measureFrom_spec props n :
  forall i off h, 0 <= i ->
  exists h',
    measureFrom props n i off h = (Normal tt, h') /\
    lastMeasuredIndex (inst h') = lastMeasuredIndex (inst h) /\
    estimatedItemSize (inst h') = estimatedItemSize (inst h) /\
    itemSizeCalls h' = loggedRange i n ++ itemSizeCalls h /\
    (forall j, ~ (i <= j < i + Z.of_nat n) ->
       itemMetadataMap (inst h') !! j = itemMetadataMap (inst h) !! j) /\
    (forall j, i <= j < i + Z.of_nat n ->
       itemMetadataMap (inst h') !! j =
       Some (mkItemMetadata
               (off + (sumZ (itemSize props) j - sumZ (itemSize props) i))
               (itemSize props j))).
Proof.
  induction n as [| n IH]; intros i off h Hi.
  - exists h. simpl. repeat split; auto. intros j Hj. lia.
  - cbn [measureFrom]. unfold bind at 1. unfold callItemSize at 1.
    unfold bind at 1. unfold writeEntry at 1.
    match goal with
    | |- context [measureFrom props n (i + 1) ?o ?h0] =>
        destruct (IH (i + 1) o h0 ltac:(lia))
          as (h' & Hrun & HL & He & Hlog & Hout & Hin)
    end.
    exists h'. rewrite Hrun. cbn [inst itemSizeCalls lastMeasuredIndex
      estimatedItemSize itemMetadataMap] in *.
    repeat split; auto.
    + rewrite Hlog. cbn [loggedRange]. now rewrite <- app_assoc.
    + intros j Hj. rewrite Hout by lia. apply lookup_insert_ne. lia.
    + intros j Hj. destruct (Z.eq_dec j i) as [-> | Hne].
      * rewrite Hout by lia. rewrite lookup_insert_eq. f_equal. f_equal. lia.
      * rewrite Hin by lia. f_equal. f_equal.
        rewrite (sumZ_succ _ i) by lia. lia.
Qed.

Lemma wf_end_prefix ip :
  wf ip -> forall m, 0 <= lastMeasuredIndex ip ->
  itemMetadataMap ip !! lastMeasuredIndex ip = Some m ->
  offset m + size m = storedPrefix ip (lastMeasuredIndex ip + 1).
Proof.
  intros [HL Hwf] m H0 Hm.
  destruct (Hwf (lastMeasuredIndex ip) ltac:(lia)) as (m' & Hm' & _ & Hoff).
  rewrite Hm in Hm'. injection Hm' as <-.
  unfold storedPrefix in *. rewrite sumZ_succ by lia.
  rewrite Hoff. unfold storedSize. now rewrite Hm.
Qed.

Lemma offsetAt_stored props ip i :
  i <= lastMeasuredIndex ip + 1 -> offsetAt props ip i = storedPrefix ip i.
Proof.
  intros Hi. apply sumZ_ext. intros k Hk. unfold sizeAt.
  destruct (Z.leb_spec k (lastMeasuredIndex ip)); [reflexivity | lia].
Qed.

Lemma sizeAt_pos props ip j :
  wf ip -> positiveSizes props -> 0 <= j -> 0 < sizeAt props ip j.
Proof.
  intros [HL Hwf] Hpos Hj. unfold sizeAt.
  destruct (Z.leb_spec j (lastMeasuredIndex ip)).
  - destruct (Hwf j ltac:(lia)) as (m & Hm & Hs & _).
    unfold storedSize. now rewrite Hm.
  - now apply Hpos.
Qed.

Lemma wf_lookup props ip i :
  wf ip -> 0 <= i <= lastMeasuredIndex ip ->
  itemMetadataMap ip !! i = Some (metadataAt props ip i).
Proof.
  intros Hwf Hi. destruct (proj2 Hwf i Hi) as (m & Hm & _ & Hoff).
  rewrite Hm. f_equal. destruct m as [o s]. unfold metadataAt.
  cbn [offset size] in *. f_equal.
  - rewrite offsetAt_stored by lia. exact Hoff.
  - unfold sizeAt, storedSize.
    destruct (Z.leb_spec i (lastMeasuredIndex ip)); [| lia]. now rewrite Hm.
Qed.

Lemma extends_refl props h : wf (inst h) -> extends props h h.
Proof. intros Hwf. repeat split; auto; try apply Hwf; lia. Qed.

Lemma extends_offsetAt props h h' i :
  extends props h h' ->
  offsetAt props (inst h') i = offsetAt props (inst h) i.
Proof.
  intros (_ & _ & _ & _ & _ & Hs). apply sumZ_ext. intros k Hk. apply Hs. lia.
Qed.

Lemma extends_trans props h1 h2 h3 :
  extends props h1 h2 -> extends props h2 h3 -> extends props h1 h3.
Proof.
  intros (Hw2 & HL2 & He2 & Hm2 & Hf2 & Hs2) (Hw3 & HL3 & He3 & Hm3 & Hf3 & Hs3).
  repeat split; try apply Hw3; try lia; try congruence.
  - intros j Hj. rewrite Hm3 by lia. now apply Hm2.
  - intros j Hj. rewrite Hf3 by lia. apply Hf2. lia.
  - intros j Hj. rewrite Hs3 by lia. now apply Hs2.
Qed.

(** A cached item is returned as it is: no measurement, no write. *)
Lemma getItemMetadata_cached props index h :
  index <= lastMeasuredIndex (inst h) ->
  getItemMetadata props index h =
  (Normal (itemMetadataMap (inst h) !! index), h).
Proof.
  intros Hi. unfold getItemMetadata, bind, readLastMeasuredIndex.
  destruct (Z.gtb_spec index (lastMeasuredIndex (inst h))); [lia |].
  reflexivity.
Qed.

(** Measuring: from a well-formed state, [getItemMetadata] returns the exact
    metadata of the item and leaves a state that continues the one before. *)
Lemma getItemMetadata_spec props index h :
  wf (inst h) -> positiveSizes props -> 0 <= index ->
  exists h',
    getItemMetadata props index h =
      (Normal (Some (metadataAt props (inst h) index)), h') /\
    extends props h h' /\
    lastMeasuredIndex (inst h') = Z.max (lastMeasuredIndex (inst h)) index.
Proof.
  intros Hwf Hpos Hi.
  destruct (Z_le_gt_dec index (lastMeasuredIndex (inst h))) as [Hle | Hgt].
  - exists h. rewrite getItemMetadata_cached by lia.
    rewrite (wf_lookup props) by (auto; lia).
    repeat split; auto; try apply Hwf; lia.
  - pose proof Hwf as [HL Hent].
    unfold getItemMetadata, bind at 1, readLastMeasuredIndex.
    destruct (Z.gtb_spec index (lastMeasuredIndex (inst h))); [| lia].
    set (L := lastMeasuredIndex (inst h)) in *.
    assert (Hstart : exists o,
      (if L >=? 0
       then itemMetadata <- bind (readEntry L) defined ;;
            ret (offset itemMetadata + size itemMetadata)
       else ret 0) h = (Normal o, h) /\ o = storedPrefix (inst h) (L + 1)).
    { destruct (Z.geb_spec L 0).
      - destruct (Hent L ltac:(lia)) as (m & Hm & _).
        exists (offset m + size m). unfold bind, readEntry. fold L.
        rewrite Hm. cbn. split; [reflexivity |].
        apply wf_end_prefix; auto.
      - exists 0. split; [reflexivity |].
        unfold storedPrefix. rewrite sumZ_neg; lia. }
    destruct Hstart as (o & Hrun0 & Ho).
    unfold bind at 1. unfold bind at 1. rewrite Hrun0.
    destruct (measureFrom_spec props (Z.to_nat (index - L)) (L + 1) o h
                ltac:(lia))
      as (h1 & Hrun & HL1 & He1 & Hlog & Hout & Hin).
    unfold bind at 1. rewrite Hrun.
    unfold writeLastMeasuredIndex, readEntry.
    cbn [inst itemSizeCalls lastMeasuredIndex estimatedItemSize
         itemMetadataMap].
    rewrite Z2Nat.id in Hout, Hin by lia.
    assert (Hsize : forall j, 0 <= j ->
      storedSize (inst h1) j =
      if j <=? index then sizeAt props (inst h) j else storedSize (inst h) j).
    { intros j Hj. unfold storedSize, sizeAt. fold L.
      destruct (Z.leb_spec j index), (Z.leb_spec j L); try lia.
      - now rewrite Hout by lia.
      - now rewrite Hin by lia.
      - now rewrite Hout by lia. }
    assert (Hoff : forall j, L < j <= index ->
      o + (sumZ (itemSize props) j - sumZ (itemSize props) (L + 1)) =
      offsetAt props (inst h) j).
    { intros j Hj. unfold offsetAt. rewrite Ho. unfold storedPrefix.
      symmetry. apply sumZ_splice; [lia | |].
      - intros k Hk. unfold sizeAt. fold L.
        destruct (Z.leb_spec k L); [reflexivity | lia].
      - intros k Hk. unfold sizeAt. fold L.
        destruct (Z.leb_spec k L); [lia | reflexivity]. }
    eexists. split; [| split].
    + rewrite Hin by lia. rewrite Hoff by lia.
      unfold metadataAt, sizeAt. fold L.
      destruct (Z.leb_spec index L); [lia | reflexivity].
    + unfold extends.
      cbn [inst itemSizeCalls lastMeasuredIndex estimatedItemSize
           itemMetadataMap]. fold L.
      split; [| split; [lia | split; [exact He1 | split; [| split]]]].
      * split; cbn [lastMeasuredIndex itemMetadataMap]; [lia |].
        intros j Hj.
        assert (Hpre : storedPrefix
          {| itemMetadataMap := itemMetadataMap (inst h1);
             estimatedItemSize := estimatedItemSize (inst h1);
             lastMeasuredIndex := index |} j = offsetAt props (inst h) j).
        { apply sumZ_ext. intros k Hk.
          transitivity (storedSize (inst h1) k); [reflexivity |].
          rewrite Hsize by lia.
          destruct (Z.leb_spec k index); [reflexivity | lia]. }
        rewrite Hpre.
        destruct (Z_le_gt_dec j L).
        -- rewrite Hout by lia.
           rewrite (wf_lookup props) by (auto; fold L; lia).
           eexists. split; [reflexivity |]. cbn [offset size].
           split; [apply sizeAt_pos; auto; lia | reflexivity].
        -- rewrite Hin by lia. eexists. split; [reflexivity |].
           cbn [offset size]. split; [apply Hpos; lia | apply Hoff; lia].
      * intros j Hj. apply Hout. lia.
      * intros j Hj. apply Hout. lia.
      * intros j Hj. unfold sizeAt at 1. cbn [lastMeasuredIndex].
        transitivity (if j <=? index then storedSize (inst h1) j
                      else itemSize props j); [reflexivity |].
        rewrite Hsize by lia. unfold sizeAt. fold L.
        destruct (Z.leb_spec j index), (Z.leb_spec j L); try lia; reflexivity.
    + cbn [inst lastMeasuredIndex]. fold L. lia.
Qed.

(** ** The offset locator: what the searches compute *)

Lemma midpoint_bounds low high :
  low <= high -> low <= low + (high - low) / 2 <= high.
Proof.
  intros H.
  assert (0 <= (high - low) / 2 <= high - low)
    by (split; [apply Z.div_pos | apply Z.div_le_upper_bound]; lia).
  lia.
Qed.

Lemma offsetAt_succ props ip i :
  0 <= i -> offsetAt props ip (i + 1) = offsetAt props ip i + sizeAt props ip i.
Proof. intros Hi. unfold offsetAt. now rewrite sumZ_succ. Qed.

Lemma offsetAt_lt props ip i j :
  wf ip -> positiveSizes props -> 0 <= i -> i < j ->
  offsetAt props ip i < offsetAt props ip j.
Proof.
  intros Hwf Hpos Hi Hij. apply sumZ_lt; auto.
  intros k Hk. now apply sizeAt_pos.
Qed.

Lemma offsetAt_le props ip i j :
  wf ip -> positiveSizes props -> 0 <= i -> i <= j ->
  offsetAt props ip i <= offsetAt props ip j.
Proof.
  intros Hwf Hpos Hi Hij. apply sumZ_le; auto.
  intros k Hk. now apply sizeAt_pos.
Qed.

Lemma binarySearch_spec props high low offset_ h :
  positiveSizes props -> wf (inst h) -> 0 <= low -> low <= high + 1 ->
  exists r h',
    findNearestItemBinarySearch props high low offset_ h = (Normal r, h') /\
    extends props h h' /\
    ((low <= r <= high /\
      offsetAt props (inst h) r <= offset_ /\
      (r < high -> offset_ < offsetAt props (inst h) (r + 1))) \/
     (r = Z.max 0 (low - 1) /\
      (low <= high -> offset_ < offsetAt props (inst h) low))).
Proof.
  funelim (findNearestItemBinarySearch props high low offset_ h);
    intros Hpos Hwf Hlow Hhigh.
  - (* the loop is over *)
    exists (Z.max 0 (low - 1)), h. split.
    + destruct (Z.gtb_spec low 0); do 2 f_equal; lia.
    + split; [now apply extends_refl |]. right. split; [reflexivity | lia].
  - (* one iteration *)
    pose proof (midpoint_bounds low high ltac:(lia)) as Hmid.
    set (middle := low + (high - low) / 2) in *.
    destruct (getItemMetadata_spec props middle h Hwf Hpos ltac:(lia))
      as (h1 & Hrun & Hext & _).
    rewrite Hrun in Heq. injection Heq as Hm Hh. subst itemMetadata h'.
    change (offset (metadataAt props (inst h) middle))
      with (offsetAt props (inst h) middle).
    pose proof (fun i => extends_offsetAt props h h1 i Hext) as Hsame.
    destruct (Z.eqb_spec (offsetAt props (inst h) middle) offset_) as [He | Hne].
    + exists middle, h1. split; [reflexivity |]. split; [exact Hext |].
      left. split; [lia |]. split; [lia |].
      intros _. rewrite <- He. apply offsetAt_lt; auto; lia.
    + destruct (Z.ltb_spec (offsetAt props (inst h) middle) offset_)
        as [Hlt | Hge].
      * destruct (H Hpos (proj1 Hext) ltac:(lia) ltac:(lia))
          as (r & h2 & Hrun2 & Hext2 & Hres).
        exists r, h2. split; [exact Hrun2 |].
        split; [eapply extends_trans; eauto |].
        rewrite !Hsame in Hres. left.
        destruct Hres as [(Hr & Hle & Hnext) | (Hr & Hnext)].
        -- repeat split; auto; lia.
        -- replace r with middle by lia. repeat split; lia.
      * destruct (H0 Hpos (proj1 Hext) ltac:(lia) ltac:(lia))
          as (r & h2 & Hrun2 & Hext2 & Hres).
        exists r, h2. split; [exact Hrun2 |].
        split; [eapply extends_trans; eauto |].
        rewrite !Hsame in Hres.
        destruct Hres as [(Hr & Hle & Hnext) | (Hr & Hnext)].
        -- left. repeat split; auto; try lia. intros _.
           destruct (Z.eq_dec r (middle - 1)) as [Her | Hnr].
           ++ rewrite Her. replace (middle - 1 + 1) with middle by lia. lia.
           ++ apply Hnext. lia.
        -- right. split; [exact Hr |]. intros _.
           destruct (Z.eq_dec low middle) as [Hel | Hnr];
             [rewrite Hel; lia | apply Hnext; lia].
  - (* an undefined entry cannot come out of a measurement *)
    exfalso. pose proof (midpoint_bounds low high ltac:(lia)) as Hmid.
    destruct (getItemMetadata_spec props _ h Hwf Hpos
                (Z.le_trans _ _ _ Hlow (proj1 Hmid))) as (h1 & Hrun & _).
    congruence.
  - exfalso. pose proof (midpoint_bounds low high ltac:(lia)) as Hmid.
    destruct (getItemMetadata_spec props _ h Hwf Hpos
                (Z.le_trans _ _ _ Hlow (proj1 Hmid))) as (h1 & Hrun & _).
    congruence.
Qed.

(** The probe started at [base + interval - 1] stops at an index that is past
    the end or at or beyond the target; when it moved at all, the probe before
    the last one, at [base + q - 1], was still below the target. *)
Lemma exponentialProbe_spec props index interval offset_ h :
  positiveSizes props -> wf (inst h) -> 0 <= index ->
  forall base, index = base + Z.pos interval - 1 ->
  exists r h',
    exponentialProbe props index interval offset_ h = (Normal r, h') /\
    extends props h h' /\
    (itemCount props <= r \/ offset_ <= offsetAt props (inst h) r) /\
    (r = index \/
     exists q, r = base + 2 * Z.pos q - 1 /\
               (interval <= q)%positive /\
               base + Z.pos q - 1 < itemCount props /\
               offsetAt props (inst h) (base + Z.pos q - 1) < offset_).
Proof.
  funelim (exponentialProbe props index interval offset_ h);
    intros Hpos Hwf Hindex base Hbase.
  - exists index, h. split; [reflexivity |].
    split; [now apply extends_refl |]. split; [left; lia | now left].
  - destruct (getItemMetadata_spec props index h Hwf Hpos Hindex)
      as (h1 & Hrun & Hext & _).
    rewrite Hrun in Heq. injection Heq as Hm Hh. subst itemMetadata h'.
    change (offset (metadataAt props (inst h) index))
      with (offsetAt props (inst h) index).
    pose proof (fun i => extends_offsetAt props h h1 i Hext) as Hsame.
    destruct (Z.ltb_spec (offsetAt props (inst h) index) offset_)
      as [Hlt | Hge].
    + destruct (H Hpos (proj1 Hext) ltac:(lia) base ltac:(lia))
        as (r & h2 & Hrun2 & Hext2 & Hstop & Hprev).
      exists r, h2. split; [exact Hrun2 |].
      split; [eapply extends_trans; eauto |].
      rewrite !Hsame in Hstop. split; [exact Hstop |]. right.
      destruct Hprev as [Hr | (q & Hr & Hq & Hin & Hbelow)].
      * exists interval. split; [lia |]. split; [lia |].
        split; [lia |]. now replace (base + Z.pos interval - 1) with index by lia.
      * exists q. rewrite Hsame in Hbelow. split; [exact Hr |].
        split; [lia |]. split; [exact Hin | exact Hbelow].
    + exists index, h1. split; [reflexivity |]. split; [exact Hext |].
      split; [right; lia | now left].
  - exfalso.
    destruct (getItemMetadata_spec props index h Hwf Hpos Hindex)
      as (h1 & Hrun & _). congruence.
  - exfalso.
    destruct (getItemMetadata_spec props index h Hwf Hpos Hindex)
      as (h1 & Hrun & _). congruence.
Qed.

Lemma offsetAt_0 props ip : offsetAt props ip 0 = 0.
Proof. reflexivity. Qed.

(** The watermark's offset as [findNearestItem] reads it. *)
Lemma lastMeasuredItemOffset_run props h :
  wf (inst h) ->
  (if lastMeasuredIndex (inst h) >? 0
   then itemMetadata <- bind (readEntry (lastMeasuredIndex (inst h))) defined ;;
        ret (offset itemMetadata)
   else ret 0) h =
  (Normal (offsetAt props (inst h) (lastMeasuredIndex (inst h))), h).
Proof.
  intros Hwf. destruct (Z.gtb_spec (lastMeasuredIndex (inst h)) 0).
  - unfold bind, readEntry. rewrite (wf_lookup props) by (auto; lia).
    reflexivity.
  - unfold ret. f_equal. f_equal. unfold offsetAt. rewrite sumZ_neg; lia.
Qed.

(** The item that contains an offset is unique. *)
Lemma containing_item_unique props ip i j o :
  wf ip -> positiveSizes props -> 0 <= i -> 0 <= j ->
  offsetAt props ip i <= o < offsetAt props ip i + sizeAt props ip i ->
  offsetAt props ip j <= o < offsetAt props ip j + sizeAt props ip j ->
  i = j.
Proof.
  intros Hwf Hpos Hi Hj Hio Hjo.
  rewrite <- offsetAt_succ in Hio, Hjo by lia.
  destruct (Z.lt_trichotomy i j) as [Hlt | [Heq | Hgt]]; [| exact Heq |].
  - pose proof (offsetAt_le props ip (i + 1) j Hwf Hpos). lia.
  - pose proof (offsetAt_le props ip (j + 1) i Hwf Hpos). lia.
Qed.

Lemma extends_metadataAt props h h' i :
  extends props h h' -> 0 <= i ->
  metadataAt props (inst h') i = metadataAt props (inst h) i.
Proof.
  intros Hext Hi. unfold metadataAt.
  rewrite (extends_offsetAt props h h' i Hext).
  destruct Hext as (_ & _ & _ & _ & _ & Hs). now rewrite Hs.
Qed.

(** Search correctness once something has been measured: for an offset
    within the exact total size, the item found is the one whose extent
    contains the offset. *)
Lemma findNearestItem_measured_run props offset_ h :
  positiveSizes props -> wf (inst h) ->
  0 <= lastMeasuredIndex (inst h) ->
  0 <= offset_ < offsetAt props (inst h) (itemCount props) ->
  exists r h',
    findNearestItem props offset_ h = (Normal r, h') /\
    extends props h h' /\
    0 <= r < itemCount props /\
    offsetAt props (inst h) r <= offset_
      < offsetAt props (inst h) r + sizeAt props (inst h) r.
Proof.
  intros Hpos Hwf HL [Ho0 Hototal].
  set (O := offsetAt props (inst h)) in *.
  set (L := lastMeasuredIndex (inst h)) in *.
  assert (Hcount : 0 < itemCount props).
  { destruct (Z_lt_le_dec 0 (itemCount props)); [assumption |].
    unfold O, offsetAt in Hototal. rewrite sumZ_neg in Hototal; lia. }
  assert (Hmono : forall i j, 0 <= i -> i < j -> O i < O j)
    by (intros; apply offsetAt_lt; auto).
  assert (Hsucc : forall i, 0 <= i -> O (i + 1) = O i + sizeAt props (inst h) i)
    by (intros; apply offsetAt_succ; auto).
  assert (Hin : forall r, O r <= offset_ -> r < itemCount props).
  { intros r Hr. destruct (Z_lt_le_dec r (itemCount props)); [assumption |].
    pose proof (offsetAt_le props (inst h) (itemCount props) r Hwf Hpos).
    fold O in H. lia. }
  unfold findNearestItem, bind at 1, readLastMeasuredIndex. fold L.
  unfold bind at 1. unfold L at 1 2. rewrite (lastMeasuredItemOffset_run props h Hwf).
  fold L. fold O.
  destruct (Z.geb_spec (O L) offset_) as [Hge | Hlt].
  - destruct (binarySearch_spec props L 0 offset_ h Hpos Hwf ltac:(lia) ltac:(lia))
      as (r & h' & Hrun & Hext & Hres).
    exists r, h'. split; [exact Hrun |]. split; [exact Hext |]. fold O in Hres.
    destruct Hres as [(Hr & Hle & Hnext) | (Hr & Hnext)].
    + split; [split; [lia | now apply Hin] |].
      split; [exact Hle |]. rewrite <- Hsucc by lia.
      destruct (Z.eq_dec r L) as [Her | Hne].
      * rewrite Her in *. specialize (Hmono L (L + 1)). lia.
      * apply Hnext. lia.
    + exfalso. unfold O in Hnext at 1. rewrite offsetAt_0 in Hnext. lia.
  - unfold findNearestItemExponentialSearch, bind.
    destruct (exponentialProbe_spec props L 1 offset_ h Hpos Hwf HL L
                ltac:(lia))
      as (r1 & h1 & Hrun1 & Hext1 & Hstop & Hprev).
    rewrite Hrun1. fold O in Hstop, Hprev.
    pose proof (fun i => extends_offsetAt props h h1 i Hext1) as Hsame.
    destruct Hprev as [Hr1 | (q & Hr1 & _ & Hqin & Hbelow)].
    { exfalso. rewrite Hr1 in Hstop. destruct Hstop as [Hpast | Hat]; [| lia].
      pose proof (offsetAt_le props (inst h) (itemCount props) L Hwf Hpos).
      fold O in H. lia. }
    set (prev := L + Z.pos q - 1) in *.
    assert (Hlow : 0 <= r1 / 2 <= prev).
    { split; [apply Z.div_pos; lia |].
      assert (r1 / 2 < L + Z.pos q)
        by (apply Z.div_lt_upper_bound; lia). lia. }
    destruct (binarySearch_spec props (Z.min r1 (itemCount props - 1))
                (r1 / 2) offset_ h1 Hpos (proj1 Hext1) ltac:(lia) ltac:(lia))
      as (r & h' & Hrun & Hext & Hres).
    exists r, h'. split; [exact Hrun |].
    split; [eapply extends_trans; eauto |].
    rewrite !Hsame in Hres. fold O in Hres.
    destruct Hres as [(Hr & Hle & Hnext) | (Hr & Hnext)].
    + split; [split; [lia | now apply Hin] |].
      split; [exact Hle |]. rewrite <- Hsucc by lia.
      destruct (Z_lt_le_dec r (Z.min r1 (itemCount props - 1)))
        as [Hrlt | Hrge]; [now apply Hnext |].
      destruct (Z_le_gt_dec r1 (itemCount props - 1)) as [Hc | Hc].
      * replace r with r1 in * by lia.
        destruct Hstop as [Hpast | Hat]; [lia |].
        specialize (Hmono r1 (r1 + 1)). lia.
      * replace (r + 1) with (itemCount props) by lia. exact Hototal.
    + exfalso.
      pose proof (offsetAt_le props (inst h) (r1 / 2) prev Hwf Hpos).
      fold O in H. lia.
Qed.

(** X5: once the watermark is at 0 or beyond, [findNearestItem] is correct: for
    every offset from 0 up to the exact total size (excluded) it returns the
    index in [0, itemCount) of the one item whose extent contains the offset;
    that is what [getItemMetadata] then reports for it. *)
Theorem findNearestItem_measured props offset_ h :
  positiveSizes props -> wf (inst h) ->
  0 <= lastMeasuredIndex (inst h) ->
  0 <= offset_ < offsetAt props (inst h) (itemCount props) ->
  exists r h' m h'',
    findNearestItem props offset_ h = (Normal r, h') /\
    0 <= r < itemCount props /\
    getItemMetadata props r h' = (Normal (Some m), h'') /\
    offset m <= offset_ < offset m + size m /\
    (forall j, 0 <= j ->
       offsetAt props (inst h) j <= offset_
         < offsetAt props (inst h) j + sizeAt props (inst h) j ->
       j = r).
Proof.
  intros Hpos Hwf HL Ho.
  destruct (findNearestItem_measured_run props offset_ h Hpos Hwf HL Ho)
    as (r & h' & Hrun & Hext & Hr & Hin).
  destruct (getItemMetadata_spec props r h' (proj1 Hext) Hpos ltac:(lia))
    as (h'' & Hget & _).
  rewrite (extends_metadataAt props h h') in Hget by (auto; lia).
  exists r, h', (metadataAt props (inst h) r), h''.
  split; [exact Hrun |]. split; [exact Hr |]. split; [exact Hget |].
  split; [exact Hin |]. intros j Hj Hjin.
  apply (containing_item_unique props (inst h) j r offset_); auto; lia.
Qed.

(** ** Every operation continues the state it starts from *)

Lemma continues_ret props {A} (a : A) : continues props (ret a).
Proof. intros h Hwf. now apply extends_refl. Qed.

Lemma continues_throw props {A} e : continues props (@throw A e).
Proof. intros h Hwf. now apply extends_refl. Qed.

Lemma continues_defined props {A} (v : option A) : continues props (defined v).
Proof. destruct v; [apply continues_ret | apply continues_throw]. Qed.

Lemma continues_readEntry props i : continues props (readEntry i).
Proof. intros h Hwf. now apply extends_refl. Qed.

Lemma continues_readLastMeasuredIndex props :
  continues props readLastMeasuredIndex.
Proof. intros h Hwf. now apply extends_refl. Qed.

Lemma continues_bind props {A B} (c : M A) (k : A -> M B) :
  continues props c -> (forall a, continues props (k a)) ->
  continues props (bind c k).
Proof.
  intros Hc Hk h Hwf. unfold bind. specialize (Hc h Hwf).
  destruct (c h) as [[a | e] h1]; cbn [snd] in *; [| exact Hc].
  eapply extends_trans; [exact Hc |]. apply Hk, Hc.
Qed.

Lemma continues_getItemMetadata props index :
  positiveSizes props -> continues props (getItemMetadata props index).
Proof.
  intros Hpos h Hwf.
  destruct (Z_le_gt_dec index (lastMeasuredIndex (inst h))) as [Hle | Hgt].
  - rewrite getItemMetadata_cached by lia. now apply extends_refl.
  - destruct (getItemMetadata_spec props index h Hwf Hpos) as (h' & Hrun & He & _).
    + destruct Hwf. lia.
    + now rewrite Hrun.
Qed.

Ltac continues_step Hpos h Hwf Heq :=
  match type of Heq with
  | getItemMetadata ?p ?i _ = _ =>
      pose proof (continues_getItemMetadata p i Hpos h Hwf) as Hc;
      rewrite Heq in Hc; cbn [snd] in Hc
  end.

Lemma continues_binarySearch props high low offset_ :
  positiveSizes props ->
  continues props (findNearestItemBinarySearch props high low offset_).
Proof.
  intros Hpos h. funelim (findNearestItemBinarySearch props high low offset_ h);
    intros Hwf.
  - destruct (low >? 0); now apply extends_refl.
  - continues_step Hpos h Hwf Heq.
    destruct (offset itemMetadata =? offset_); [exact Hc |].
    destruct (offset itemMetadata <? offset_);
      (eapply extends_trans; [exact Hc |]); [apply H | apply H0];
      auto; apply Hc.
  - continues_step Hpos h Hwf Heq. exact Hc.
  - continues_step Hpos h Hwf Heq. exact Hc.
Qed.

Lemma continues_exponentialProbe props index interval offset_ :
  positiveSizes props ->
  continues props (exponentialProbe props index interval offset_).
Proof.
  intros Hpos h. funelim (exponentialProbe props index interval offset_ h);
    intros Hwf.
  - now apply extends_refl.
  - continues_step Hpos h Hwf Heq.
    destruct (offset itemMetadata <? offset_); [| exact Hc].
    eapply extends_trans; [exact Hc |]. apply H; auto. apply Hc.
  - continues_step Hpos h Hwf Heq. exact Hc.
  - continues_step Hpos h Hwf Heq. exact Hc.
Qed.

Lemma continues_stopIndexLoop props maxOffset stopIndex offset_ :
  positiveSizes props ->
  continues props (stopIndexLoop props maxOffset stopIndex offset_).
Proof.
  intros Hpos h. funelim (stopIndexLoop props maxOffset stopIndex offset_ h);
    intros Hwf; try (now apply extends_refl);
    match goal with
    | Hrun : getItemMetadata _ _ _ = _ |- _ => continues_step Hpos h Hwf Hrun
    end; try exact Hc.
  eapply extends_trans; [exact Hc |]. apply H; auto. apply Hc.
Qed.

Create HintDb continues discriminated.

#[local] Hint Resolve continues_ret continues_throw continues_defined
  continues_readEntry continues_readLastMeasuredIndex
  continues_getItemMetadata continues_binarySearch
  continues_exponentialProbe continues_stopIndexLoop : continues.

(** Composite computations: split binds and conditionals, then close with
    the lemmas above. *)
Ltac continues_auto :=
  repeat first
    [ solve [auto with continues]
    | progress cbv zeta
    | apply continues_bind; [| intro]
    | match goal with
      | |- continues _ (if ?b then _ else _) => destruct b
      | |- continues _ (match ?a with _ => _ end) => destruct a
      end ].

Lemma continues_findNearestItem props offset_ :
  positiveSizes props -> continues props (findNearestItem props offset_).
Proof.
  intros Hpos. unfold findNearestItem, findNearestItemExponentialSearch.
  continues_auto.
Qed.

Lemma continues_getEstimatedTotalSize props :
  continues props (getEstimatedTotalSize props).
Proof.
  unfold getEstimatedTotalSize.
  apply continues_bind; [continues_auto | intros L].
  apply continues_bind; [continues_auto | intros t h Hwf].
  now apply extends_refl.
Qed.

#[local] Hint Resolve continues_getEstimatedTotalSize : continues.

Lemma continues_getStopIndexForStartIndex props startIndex scrollOffset :
  positiveSizes props ->
  continues props (getStopIndexForStartIndex props startIndex scrollOffset).
Proof. intros Hpos. unfold getStopIndexForStartIndex. continues_auto. Qed.

Lemma continues_getOffsetForIndexAndAlignment props index align scrollOffset :
  positiveSizes props ->
  continues props
    (getOffsetForIndexAndAlignment props index align scrollOffset).
Proof.
  intros Hpos. unfold getOffsetForIndexAndAlignment. continues_auto.
Qed.

(** Lowering the watermark keeps the store well formed, as long as it is not
    lowered below -1. *)
Lemma resetAfterIndex_wf index h :
  wf (inst h) -> 0 <= index -> wf (inst (snd (resetAfterIndex index h))).
Proof.
  intros [HL Hent] Hk. unfold resetAfterIndex, bind, readLastMeasuredIndex,
    writeLastMeasuredIndex. cbn [snd inst].
  split; cbn [lastMeasuredIndex itemMetadataMap]; [lia |].
  intros i Hi. destruct (Hent i ltac:(lia)) as (m & Hm & Hs & Ho).
  exists m. repeat split; auto.
Qed.

Lemma wf_init e : wf (initInstanceProps e).
Proof. split; cbn; [lia |]. intros i Hi. lia. Qed.

Lemma perform_measuring props c h :
  positiveSizes props -> measures c -> wf (inst h) ->
  extends props h (perform props c h).
Proof.
  intros Hpos Hc Hwf. destruct c; cbn [perform]; try contradiction.
  - now apply continues_getItemMetadata.
  - now apply continues_findNearestItem.
  - now apply continues_getStopIndexForStartIndex.
  - now apply continues_getOffsetForIndexAndAlignment.
Qed.

Lemma reachable_wf h : reachable h -> wf (inst h).
Proof.
  induction 1 as [e | props c h Hr IH Hpos Hc].
  - apply wf_init.
  - destruct c; try (apply (perform_measuring props); auto; exact I).
    cbn [perform]. now apply resetAfterIndex_wf.
Qed.

Lemma reachableByMeasuring_reachable h :
  reachableByMeasuring h -> reachable h.
Proof.
  induction 1 as [e | props c h Hr IH Hpos Hc]; [constructor |].
  apply reachable_step; auto. now destruct c.
Qed.

Lemma reachableByMeasuring_noStaleEntries h :
  reachableByMeasuring h -> noStaleEntries (inst h).
Proof.
  induction 1 as [e | props c h Hr IH Hpos Hc].
  - intros j Hj. apply lookup_empty.
  - pose proof (reachable_wf h (reachableByMeasuring_reachable h Hr)) as Hwf.
    destruct (perform_measuring props c h Hpos Hc Hwf)
      as (_ & HL & _ & _ & Hframe & _).
    intros j Hj. rewrite Hframe by lia. apply IH. lia.
Qed.

Lemma uniform25_positive : positiveSizes uniform25.
Proof. intros i Hi. cbn. lia. Defined.

Lemma fiveMeasured_reachable : reachable fiveMeasured.
Proof.
  apply reachable_step;
    [apply reachable_init | exact uniform25_positive | exact I].
Defined.

(** ** The metadata store *)

(** C2, amended: in every state reached from a fresh instance by any sequence
    of [getItemMetadata], [findNearestItem], [getStopIndexForStartIndex],
    [getOffsetForIndexAndAlignment] and [resetAfterIndex] calls, made with
    positive [itemSize] and with [resetAfterIndex] called at indices of 0 or
    more, the stored offset of every item up to the watermark is the sum of
    the stored sizes before it; and [getItemMetadata] of two consecutive
    measured items returns offsets that differ by the size of the first. *)
Theorem reachable_offsets_are_prefix_sums h :
  reachable h ->
  forall i, 0 <= i <= lastMeasuredIndex (inst h) ->
  exists m,
    itemMetadataMap (inst h) !! i = Some m /\
    offset m = storedPrefix (inst h) i /\
    (forall props, getItemMetadata props i h = (Normal (Some m), h)) /\
    (i < lastMeasuredIndex (inst h) ->
     exists m',
       (forall props, getItemMetadata props (i + 1) h = (Normal (Some m'), h)) /\
       offset m' = offset m + size m).
Proof.
  intros Hr i Hi. pose proof (reachable_wf h Hr) as [HL Hent].
  destruct (Hent i Hi) as (m & Hm & _ & Ho).
  exists m. split; [exact Hm |]. split; [exact Ho |]. split.
  - intros props. rewrite getItemMetadata_cached by lia. now rewrite Hm.
  - intros Hlt. destruct (Hent (i + 1) ltac:(lia)) as (m' & Hm' & _ & Ho').
    exists m'. split.
    + intros props. rewrite getItemMetadata_cached by lia. now rewrite Hm'.
    + rewrite Ho', Ho. unfold storedPrefix. rewrite sumZ_succ by lia.
      unfold storedSize at 2. now rewrite Hm.
Qed.

Lemma reachable_offsets_are_prefix_sums_witness :
  reachable fiveMeasured /\
  0 <= 2 <= lastMeasuredIndex (inst fiveMeasured) /\
  exists m,
    itemMetadataMap (inst fiveMeasured) !! 2 = Some m /\
    offset m = storedPrefix (inst fiveMeasured) 2 /\
    (forall props, getItemMetadata props 2 fiveMeasured
                   = (Normal (Some m), fiveMeasured)) /\
    (2 < lastMeasuredIndex (inst fiveMeasured) ->
     exists m',
       (forall props, getItemMetadata props (2 + 1) fiveMeasured
                      = (Normal (Some m'), fiveMeasured)) /\
       offset m' = offset m + size m).
Proof.
  split; [exact fiveMeasured_reachable |].
  split; [vm_compute; split; discriminate |].
  apply (reachable_offsets_are_prefix_sums fiveMeasured fiveMeasured_reachable).
  vm_compute; split; discriminate.
Defined.

(** C2 fails as stated, for sequences that invalidate at a negative index.
    [resetAfterIndex (-2)] on a fresh instance lowers the watermark to -3; the
    next [getItemMetadata 0] then measures the indices -2, -1 and 0 and stores
    item 0 at offset 50, while the sum of the stored sizes before item 0 is
    0. *)
Lemma negative_invalidation_breaks_prefix_sums :
  positiveSizes uniform25 /\
  reachableByAnyCalls invalidatedAtMinusTwo /\
  0 <= 0 <= lastMeasuredIndex (inst invalidatedAtMinusTwo) /\
  itemMetadataMap (inst invalidatedAtMinusTwo) !! 0
    = Some (mkItemMetadata 50 25) /\
  storedPrefix (inst invalidatedAtMinusTwo) 0 = 0 /\
  itemSizeCalls invalidatedAtMinusTwo = (0 :: -1 :: -2 :: nil) /\
  ~ (exists m,
       itemMetadataMap (inst invalidatedAtMinusTwo) !! 0 = Some m /\
       offset m = storedPrefix (inst invalidatedAtMinusTwo) 0).
Proof.
  split; [intros i Hi; cbn; lia |].
  split.
  { apply reachable_step;
      [apply reachable_step; [apply reachable_init | | exact I] | | exact I];
      intros i Hi; cbn; lia. }
  split; [vm_compute; split; discriminate |].
  split; [vm_compute; reflexivity |].
  split; [reflexivity |].
  split; [vm_compute; reflexivity |].
  intros (m & Hm & Ho).
  assert (Hm' : itemMetadataMap (inst invalidatedAtMinusTwo) !! 0
                = Some (mkItemMetadata 50 25)) by (vm_compute; reflexivity).
  rewrite Hm' in Hm. injection Hm as <-. cbn in Ho. discriminate.
Qed.

(** C7: [resetAfterIndex k] completes normally, sets the watermark to the
    minimum of the previous one and [k - 1], so never raises it, and leaves
    the metadata map (and everything else) as it was. *)
Theorem resetAfterIndex_lowers_watermark_only k h :
  exists h',
    resetAfterIndex k h = (Normal tt, h') /\
    lastMeasuredIndex (inst h') = Z.min (lastMeasuredIndex (inst h)) (k - 1) /\
    lastMeasuredIndex (inst h') <= lastMeasuredIndex (inst h) /\
    itemMetadataMap (inst h') = itemMetadataMap (inst h) /\
    estimatedItemSize (inst h') = estimatedItemSize (inst h) /\
    itemSizeCalls h' = itemSizeCalls h.
Proof.
  eexists. split; [reflexivity |]. cbn. repeat split; lia.
Qed.

(** The older variant of the file did raise the watermark. *)
Example older_resetAfterIndex_raises_watermark :
  lastMeasuredIndex
    (inst (snd (OlderVariant.resetAfterIndex 10 (initHeap None)))) = 9.
Proof. reflexivity. Qed.

Lemma getEstimatedTotalSize_unmeasured props h :
  lastMeasuredIndex (inst h) < 0 ->
  getEstimatedTotalSize props h =
  (Normal (0 + (itemCount props - lastMeasuredIndex (inst h) - 1)
               * estimatedItemSize (inst h)), h).
Proof.
  intros HL. unfold getEstimatedTotalSize, bind at 1, readLastMeasuredIndex.
  unfold bind at 1.
  destruct (Z.geb_spec (lastMeasuredIndex (inst h)) 0); [lia | reflexivity].
Qed.

Lemma getEstimatedTotalSize_measured props h m :
  0 <= lastMeasuredIndex (inst h) ->
  itemMetadataMap (inst h) !! lastMeasuredIndex (inst h) = Some m ->
  getEstimatedTotalSize props h =
  (Normal (offset m + size m
           + (itemCount props - lastMeasuredIndex (inst h) - 1)
             * estimatedItemSize (inst h)), h).
Proof.
  intros HL Hm. unfold getEstimatedTotalSize, bind at 1, readLastMeasuredIndex.
  unfold bind at 1.
  destruct (Z.geb_spec (lastMeasuredIndex (inst h)) 0); [| lia].
  unfold bind, readEntry. rewrite Hm. reflexivity.
Qed.

(** C3: [getEstimatedTotalSize] returns the measured total (offset plus size
    of the item at the watermark, 0 when the watermark is negative) plus the
    number of unmeasured items, [itemCount - lastMeasuredIndex - 1], times
    [estimatedItemSize], without touching the state; with 100 items estimated
    at 50 and the first five measured at 25 it returns 4875, which is also
    what the first render of that list in a viewport of 100 gives, after five
    calls of [itemSize]. *)
Theorem getEstimatedTotalSize_formula props h :
  (lastMeasuredIndex (inst h) < 0 ->
   getEstimatedTotalSize props h =
   (Normal (0 + (itemCount props - lastMeasuredIndex (inst h) - 1)
                * estimatedItemSize (inst h)), h)) /\
  (forall m,
     0 <= lastMeasuredIndex (inst h) ->
     itemMetadataMap (inst h) !! lastMeasuredIndex (inst h) = Some m ->
     getEstimatedTotalSize props h =
     (Normal (offset m + size m
              + (itemCount props - lastMeasuredIndex (inst h) - 1)
                * estimatedItemSize (inst h)), h)) /\
  getEstimatedTotalSize uniform25 fiveMeasured = (Normal 4875, fiveMeasured) /\
  getEstimatedTotalSize uniform25 firstRender = (Normal 4875, firstRender) /\
  length (itemSizeCalls firstRender) = 5%nat.
Proof.
  split; [apply getEstimatedTotalSize_unmeasured |].
  split; [intros m; apply getEstimatedTotalSize_measured |].
  split; [| split]; vm_compute; reflexivity.
Qed.

Lemma getEstimatedTotalSize_formula_witness :
  lastMeasuredIndex (inst (initHeap (Some 50))) < 0 /\
  getEstimatedTotalSize uniform25 (initHeap (Some 50)) =
    (Normal (0 + (100 - -1 - 1) * 50), initHeap (Some 50)) /\
  0 <= lastMeasuredIndex (inst fiveMeasured) /\
  itemMetadataMap (inst fiveMeasured) !! lastMeasuredIndex (inst fiveMeasured)
    = Some (mkItemMetadata 100 25) /\
  getEstimatedTotalSize uniform25 fiveMeasured =
    (Normal (100 + 25 + (100 - 4 - 1) * 50), fiveMeasured).
Proof.
  split; [reflexivity |].
  split;
    [apply (proj1 (getEstimatedTotalSize_formula uniform25
                     (initHeap (Some 50)))); reflexivity |].
  split; [vm_compute; discriminate |].
  split; [vm_compute; reflexivity |].
  apply (proj1 (proj2 (getEstimatedTotalSize_formula uniform25 fiveMeasured))
           (mkItemMetadata 100 25));
    [vm_compute; discriminate | vm_compute; reflexivity].
Defined.

(** C9: for an index at or below the watermark, [getItemMetadata] returns the
    cached entry and leaves the whole state as it was, the map, the watermark
    and the log of [itemSize] calls included; so a second call returns the same
    result, and the result does not depend on the [itemSize] of the props in
    force: replacing it does not touch what is cached. *)
Theorem getItemMetadata_cached_is_pure props props' index h :
  index <= lastMeasuredIndex (inst h) ->
  getItemMetadata props index h
    = (Normal (itemMetadataMap (inst h) !! index), h) /\
  itemSizeCalls (snd (getItemMetadata props index h)) = itemSizeCalls h /\
  (getItemMetadata props index ;;; getItemMetadata props index) h
    = getItemMetadata props index h /\
  getItemMetadata props' index h = getItemMetadata props index h.
Proof.
  intros Hi. pose proof (getItemMetadata_cached props index h Hi) as Hrun.
  split; [exact Hrun |]. split; [now rewrite Hrun |]. split.
  - unfold bind. rewrite Hrun. exact Hrun.
  - rewrite Hrun. now apply getItemMetadata_cached.
Qed.

Lemma getItemMetadata_cached_is_pure_witness :
  let props' := mkProps vertical 100 50 100 (fun _ => 75) in
  3 <= lastMeasuredIndex (inst fiveMeasured) /\
  getItemMetadata uniform25 3 fiveMeasured
    = (Normal (itemMetadataMap (inst fiveMeasured) !! 3), fiveMeasured) /\
  itemSizeCalls (snd (getItemMetadata uniform25 3 fiveMeasured))
    = itemSizeCalls fiveMeasured /\
  (getItemMetadata uniform25 3 ;;; getItemMetadata uniform25 3) fiveMeasured
    = getItemMetadata uniform25 3 fiveMeasured /\
  getItemMetadata props' 3 fiveMeasured
    = getItemMetadata uniform25 3 fiveMeasured.
Proof.
  intros props'. split; [vm_compute; discriminate |].
  apply (getItemMetadata_cached_is_pure uniform25 props' 3 fiveMeasured).
  vm_compute; discriminate.
Defined.

(** ** getItemSize *)

Lemma getItemSize_run props index h :
  getItemSize props index h =
  (match itemMetadataMap (inst h) !! index with
   | Some m => Normal (size m)
   | None => Throw TypeError
   end, h).
Proof.
  unfold getItemSize, bind, readEntry.
  now destruct (itemMetadataMap (inst h) !! index).
Qed.

(** C10, as stated, fails: beyond the watermark the lookup need not miss.
    After an invalidation the entry of item 1 is still there, and
    [getItemSize] returns its size. *)
Lemma getItemSize_returns_stale_size :
  lastMeasuredIndex (inst invalidatedAfterOne) = 0 /\
  getItemSize uniform25 1 invalidatedAfterOne
    = (Normal 25, invalidatedAfterOne).
Proof. vm_compute. split; reflexivity. Qed.

(** C10, amended: [getItemSize] is a bare read of the map; it never measures
    and never changes the state: it returns the size of the entry the map
    holds at the index, and throws a [TypeError] when the map holds none.  For
    an index up to the watermark of a well-formed state that is the cached
    size.  Beyond the watermark: in a state reached without invalidation there
    is no entry and the read throws, whereas [getItemOffset] measures on
    demand and returns the exact offset; after [resetAfterIndex k] every index
    from [k] to the watermark as it was is beyond the new watermark, its entry
    is still in the map, and the read returns the size cached before the
    invalidation. *)
Theorem getItemSize_reads_map_only props index h :
  getItemSize props index h
    = (match itemMetadataMap (inst h) !! index with
       | Some m => Normal (size m)
       | None => Throw TypeError
       end, h) /\
  (wf (inst h) -> 0 <= index <= lastMeasuredIndex (inst h) ->
   getItemSize props index h = (Normal (sizeAt props (inst h) index), h)) /\
  (reachableByMeasuring h -> lastMeasuredIndex (inst h) < index ->
   getItemSize props index h = (Throw TypeError, h) /\
   (positiveSizes props ->
    exists h', getItemOffset props index h
               = (Normal (offsetAt props (inst h) index), h') /\
               lastMeasuredIndex (inst h') = index)) /\
  (forall k,
     wf (inst h) -> 0 <= k <= index -> index <= lastMeasuredIndex (inst h) ->
     let h0 := snd (resetAfterIndex k h) in
     lastMeasuredIndex (inst h0) < index /\
     exists m,
       itemMetadataMap (inst h) !! index = Some m /\
       itemMetadataMap (inst h0) !! index = Some m /\
       getItemSize props index h0 = (Normal (size m), h0)).
Proof.
  split; [| split; [| split]].
  - apply getItemSize_run.
  - intros Hwf Hi. rewrite getItemSize_run.
    rewrite (wf_lookup props) by auto. reflexivity.
  - intros Hr Hi. split.
    + rewrite getItemSize_run.
      now rewrite (reachableByMeasuring_noStaleEntries h Hr index Hi).
    + intros Hpos.
      pose proof (reachable_wf h (reachableByMeasuring_reachable h Hr)) as Hwf.
      destruct (getItemMetadata_spec props index h Hwf Hpos)
        as (h' & Hrun & _ & HL); [destruct Hwf; lia |].
      exists h'. unfold getItemOffset, bind. rewrite Hrun. cbn.
      split; [reflexivity | lia].
  - intros k Hwf Hk Hi h0.
    assert (HL0 : lastMeasuredIndex (inst h0)
                  = Z.min (lastMeasuredIndex (inst h)) (k - 1)) by reflexivity.
    assert (Hmap0 : itemMetadataMap (inst h0) = itemMetadataMap (inst h))
      by reflexivity.
    split; [lia |].
    destruct (proj2 Hwf index ltac:(lia)) as (m & Hm & _).
    exists m. split; [exact Hm |]. split; [now rewrite Hmap0 |].
    rewrite getItemSize_run, Hmap0, Hm. reflexivity.
Qed.

Lemma fiveMeasured_reachableByMeasuring : reachableByMeasuring fiveMeasured.
Proof.
  apply reachable_step;
    [apply reachable_init | exact uniform25_positive | exact I].
Defined.

Lemma fiveMeasured_wf : wf (inst fiveMeasured).
Proof. apply wfb_spec. vm_compute. reflexivity. Defined.

Lemma getItemSize_reads_map_only_witness :
  (wf (inst fiveMeasured) /\ 0 <= 3 <= lastMeasuredIndex (inst fiveMeasured) /\
   getItemSize uniform25 3 fiveMeasured
     = (Normal (sizeAt uniform25 (inst fiveMeasured) 3), fiveMeasured)) /\
  (reachableByMeasuring fiveMeasured /\
   lastMeasuredIndex (inst fiveMeasured) < 7 /\
   getItemSize uniform25 7 fiveMeasured = (Throw TypeError, fiveMeasured)) /\
  (wf (inst fiveMeasured) /\ 0 <= 2 <= 3 /\
   3 <= lastMeasuredIndex (inst fiveMeasured) /\
   let h0 := snd (resetAfterIndex 2 fiveMeasured) in
   lastMeasuredIndex (inst h0) < 3 /\
   exists m,
     itemMetadataMap (inst fiveMeasured) !! 3 = Some m /\
     itemMetadataMap (inst h0) !! 3 = Some m /\
     getItemSize uniform25 3 h0 = (Normal (size m), h0)).
Proof.
  split; [| split].
  - split; [exact fiveMeasured_wf |].
    split; [vm_compute; split; discriminate |].
    apply (proj1 (proj2 (getItemSize_reads_map_only uniform25 3 fiveMeasured)));
      [exact fiveMeasured_wf | vm_compute; split; discriminate].
  - split; [exact fiveMeasured_reachableByMeasuring |].
    split; [vm_compute; reflexivity |].
    apply (proj1 (proj2 (proj2
             (getItemSize_reads_map_only uniform25 7 fiveMeasured))));
      [exact fiveMeasured_reachableByMeasuring | vm_compute; reflexivity].
  - split; [exact fiveMeasured_wf |]. split; [lia |].
    split; [vm_compute; discriminate |].
    apply (proj2 (proj2 (proj2
             (getItemSize_reads_map_only uniform25 3 fiveMeasured))) 2);
      [exact fiveMeasured_wf | lia | vm_compute; discriminate].
Defined.

(** ** The offset locator: boundary cases *)

(** A search inside the measured range reads the cache only. *)
Lemma binarySearch_cached props high low offset_ h :
  high <= lastMeasuredIndex (inst h) ->
  snd (findNearestItemBinarySearch props high low offset_ h) = h.
Proof.
  funelim (findNearestItemBinarySearch props high low offset_ h); intros HL;
    try (pose proof (midpoint_bounds low high ltac:(lia)) as Hmid;
         rewrite getItemMetadata_cached in Heq by lia;
         injection Heq as Hm Hh; subst h').
  - now destruct (low >? 0).
  - destruct (offset itemMetadata =? offset_); [reflexivity |].
    destruct (offset itemMetadata <? offset_); [apply H | apply H0]; lia.
  - reflexivity.
  - reflexivity.
Qed.

(** With nothing measured and a positive offset, the exponential search
    starts its probe at index -1, which has no entry. *)
Lemma findNearestItem_unmeasured_throws props offset_ h :
  lastMeasuredIndex (inst h) = -1 ->
  itemMetadataMap (inst h) !! (-1) = None ->
  0 <= itemCount props -> 0 < offset_ ->
  findNearestItem props offset_ h = (Throw TypeError, h).
Proof.
  intros HL Hnone Hcount Ho.
  unfold findNearestItem, bind, readLastMeasuredIndex. rewrite HL.
  cbn [Z.gtb Z.compare ret].
  destruct (Z.geb_spec 0 offset_); [lia |].
  unfold findNearestItemExponentialSearch, bind.
  simp exponentialProbe.
  destruct (Z_lt_ge_dec (-1) (itemCount props)); [| lia].
  cbn [exponentialProbe_unfold_clause_1].
  rewrite getItemMetadata_cached by lia. rewrite Hnone. reflexivity.
Qed.

(** C1 does not hold on a fresh instance: offset 10 lies inside the only
    item, whose extent is [0, 25), and the search throws instead of returning
    index 0. *)
Theorem findNearestItem_fresh_instance_throws :
  positiveSizes single25 /\
  1 <= itemCount single25 /\
  0 <= 10 < offsetAt single25 (inst (initHeap None)) (itemCount single25) /\
  offset (metadataAt single25 (inst (initHeap None)) 0) <= 10
    < offset (metadataAt single25 (inst (initHeap None)) 0)
      + size (metadataAt single25 (inst (initHeap None)) 0) /\
  findNearestItem single25 10 (initHeap None)
    = (Throw TypeError, initHeap None).
Proof.
  split; [intros i Hi; cbn; lia |].
  repeat split; try (vm_compute; congruence).
Qed.

(** C8 fails as stated: with nothing measured and a positive offset the
    search does not return 0, it throws. *)
Lemma findNearestItem_unmeasured_is_not_zero :
  lastMeasuredIndex (inst (initHeap None)) = -1 /\
  0 <= itemCount uniform25 /\
  fst (findNearestItem uniform25 60 (initHeap None)) <> Normal 0 /\
  findNearestItem uniform25 60 (initHeap None)
    = (Throw TypeError, initHeap None).
Proof.
  split; [reflexivity |]. split; [vm_compute; discriminate |].
  rewrite findNearestItem_unmeasured_throws;
    [split; [discriminate | reflexivity] | reflexivity | reflexivity
    | vm_compute; discriminate | lia].
Qed.

(** C8, amended: for every item count and every well-formed state (sizes
    positive), [findNearestItem] returns 0 for every offset that is zero or
    negative, and leaves the state as it was; this covers the state in which
    nothing is measured yet. *)
Theorem findNearestItem_nonpositive_offset props offset_ h :
  positiveSizes props -> wf (inst h) -> offset_ <= 0 ->
  findNearestItem props offset_ h = (Normal 0, h).
Proof.
  intros Hpos Hwf Ho.
  set (L := lastMeasuredIndex (inst h)).
  assert (HOL : 0 <= offsetAt props (inst h) L).
  { destruct (Z_le_gt_dec 0 L).
    - rewrite <- (offsetAt_0 props (inst h)) at 1. now apply offsetAt_le.
    - unfold offsetAt. rewrite sumZ_neg; lia. }
  unfold findNearestItem, bind at 1, readLastMeasuredIndex.
  unfold bind at 1. rewrite (lastMeasuredItemOffset_run props h Hwf). fold L.
  destruct (Z.geb_spec (offsetAt props (inst h) L) offset_); [| lia].
  destruct (binarySearch_spec props L 0 offset_ h Hpos Hwf)
    as (r & h' & Hrun & _ & Hres); [lia | destruct Hwf; fold L; lia |].
  pose proof (binarySearch_cached props L 0 offset_ h ltac:(fold L; lia))
    as Hsame.
  rewrite Hrun in *. cbn [snd] in Hsame. subst h'. f_equal. f_equal.
  destruct Hres as [(Hr & Hle & _) | (Hr & _)]; [| lia].
  destruct (Z.eq_dec r 0) as [Hz | Hnz]; [exact Hz |].
  pose proof (offsetAt_lt props (inst h) 0 r Hwf Hpos ltac:(lia) ltac:(lia))
    as Hlt.
  rewrite offsetAt_0 in Hlt. lia.
Qed.

Lemma findNearestItem_nonpositive_offset_witness :
  positiveSizes uniform25 /\ wf (inst fiveMeasured) /\ -3 <= 0 /\
  findNearestItem uniform25 (-3) fiveMeasured = (Normal 0, fiveMeasured).
Proof.
  split; [exact uniform25_positive |]. split; [exact fiveMeasured_wf |].
  split; [lia |].
  apply (findNearestItem_nonpositive_offset uniform25 (-3) fiveMeasured);
    [exact uniform25_positive | exact fiveMeasured_wf | lia].
Defined.

(** ** The alignment planner *)

Lemma getEstimatedTotalSize_wf props h :
  wf (inst h) ->
  exists total, getEstimatedTotalSize props h = (Normal total, h).
Proof.
  intros [HL Hent]. destruct (Z_lt_le_dec (lastMeasuredIndex (inst h)) 0).
  - eexists. now apply getEstimatedTotalSize_unmeasured.
  - destruct (Hent (lastMeasuredIndex (inst h)) ltac:(lia)) as (m & Hm & _).
    eexists. now apply (getEstimatedTotalSize_measured props h m).
Qed.

(** What the planner computes before it looks at the alignment: the metadata
    of the item, measured if need be, and then the estimated total size. *)
Lemma alignment_prelude props index h :
  positiveSizes props -> wf (inst h) -> 0 <= index ->
  exists total h1,
    getItemMetadata props index h
      = (Normal (Some (metadataAt props (inst h) index)), h1) /\
    extends props h h1 /\
    index <= lastMeasuredIndex (inst h1) /\
    getEstimatedTotalSize props h1 = (Normal total, h1).
Proof.
  intros Hpos Hwf Hi.
  destruct (getItemMetadata_spec props index h Hwf Hpos Hi)
    as (h1 & Hrun & Hext & HL).
  destruct (getEstimatedTotalSize_wf props h1 (proj1 Hext)) as (total & Ht).
  exists total, h1. repeat split; auto; try apply Hext. lia.
Qed.

(** [Math.round] of the midpoint of two integers, in integer arithmetic. *)
Lemma Math_round_midpoint a b :
  Math_round (inject_Z a + inject_Z (b - a) / 2)%Q = (a + b + 1) / 2.
Proof.
  unfold Math_round.
  rewrite (Qfloor_comp _ ((a + b + 1) # 2)%Q).
  - reflexivity.
  - unfold Qeq, Qplus, Qdiv, Qmult, Qinv, inject_Z. cbn. lia.
Qed.

(** [Math.round] meets its specification: it returns the nearest integer, a
    half rounded up, and that integer is unique. *)
Lemma Math_round_nearest x : nearestIntegerHalfUp x (Math_round x).
Proof.
  unfold nearestIntegerHalfUp, Math_round.
  pose proof (Qfloor_le (x + (1 # 2))) as Hle.
  pose proof (Qlt_floor (x + (1 # 2))) as Hlt.
  rewrite inject_Z_plus in Hlt. change (inject_Z 1) with 1%Q in Hlt.
  split; lra.
Qed.

Lemma nearestIntegerHalfUp_unique x r1 r2 :
  nearestIntegerHalfUp x r1 -> nearestIntegerHalfUp x r2 -> r1 = r2.
Proof.
  intros [H1 H2] [H3 H4].
  assert (Ha : (inject_Z r1 < inject_Z r2 + 1)%Q) by lra.
  assert (Hb : (inject_Z r2 < inject_Z r1 + 1)%Q) by lra.
  change 1%Q with (inject_Z 1) in Ha, Hb.
  rewrite <- inject_Z_plus in Ha, Hb. rewrite <- Zlt_Qlt in Ha, Hb. lia.
Qed.

(** C4: for an item index (zero or more) in a well-formed state,
    [getOffsetForIndexAndAlignment] measures the item, then computes the
    estimated total size, and returns [maxOffset] for [start], [minOffset] for
    [end] and the rounded midpoint for [center], where [maxOffset] is the
    minimum of total size minus viewport size and the item's offset, and
    [minOffset] the maximum of 0 and the item's offset minus viewport size
    plus its size.  The rounded midpoint is the one integer nearest to
    [minOffset + (maxOffset - minOffset) / 2], a half rounded up, which is
    [(minOffset + maxOffset + 1) / 2] in integer division. *)
Theorem getOffsetForIndexAndAlignment_start_end_center
  props index scrollOffset h :
  positiveSizes props -> wf (inst h) -> 0 <= index ->
  exists m total h1,
    getItemMetadata props index h = (Normal (Some m), h1) /\
    m = mkItemMetadata (offsetAt props (inst h) index)
                       (sizeAt props (inst h) index) /\
    getEstimatedTotalSize props h1 = (Normal total, h1) /\
    let maxOffset := Z.min (total - viewportSize props) (offset m) in
    let minOffset := Z.max 0 (offset m - viewportSize props + size m) in
    let midpoint :=
      (inject_Z minOffset + inject_Z (maxOffset - minOffset) / 2)%Q in
    getOffsetForIndexAndAlignment props index AlignStart scrollOffset h
      = (Normal maxOffset, h1) /\
    getOffsetForIndexAndAlignment props index AlignEnd scrollOffset h
      = (Normal minOffset, h1) /\
    getOffsetForIndexAndAlignment props index AlignCenter scrollOffset h
      = (Normal ((minOffset + maxOffset + 1) / 2), h1) /\
    nearestIntegerHalfUp midpoint ((minOffset + maxOffset + 1) / 2) /\
    (forall r, nearestIntegerHalfUp midpoint r ->
               r = (minOffset + maxOffset + 1) / 2) /\
    getOffsetForIndexAndAlignment props index AlignCenter scrollOffset h
      = (Normal (Math_round midpoint), h1).
Proof.
  intros Hpos Hwf Hi.
  destruct (alignment_prelude props index h Hpos Hwf Hi)
    as (total & h1 & Hrun & _ & _ & Ht).
  exists (metadataAt props (inst h) index), total, h1.
  split; [exact Hrun |]. split; [reflexivity |]. split; [exact Ht |].
  cbv zeta.
  set (m := metadataAt props (inst h) index).
  set (maxOffset := Z.min (total - viewportSize props) (offset m)).
  set (minOffset := Z.max 0 (offset m - viewportSize props + size m)).
  assert (Hnear : nearestIntegerHalfUp
            (inject_Z minOffset + inject_Z (maxOffset - minOffset) / 2)
            ((minOffset + maxOffset + 1) / 2)).
  { rewrite <- Math_round_midpoint. apply Math_round_nearest. }
  unfold getOffsetForIndexAndAlignment, bind. rewrite Hrun.
  cbn [defined ret]. rewrite Ht. fold m maxOffset minOffset.
  split; [reflexivity |]. split; [reflexivity |].
  split; [now rewrite Math_round_midpoint |]. split; [exact Hnear |].
  split; [| reflexivity].
  intros r Hr. exact (nearestIntegerHalfUp_unique _ _ _ Hr Hnear).
Qed.

Lemma getOffsetForIndexAndAlignment_start_end_center_witness :
  positiveSizes uniform25 /\ wf (inst fiveMeasured) /\ 0 <= 10 /\
  exists m total h1,
    getItemMetadata uniform25 10 fiveMeasured = (Normal (Some m), h1) /\
    m = mkItemMetadata (offsetAt uniform25 (inst fiveMeasured) 10)
                       (sizeAt uniform25 (inst fiveMeasured) 10) /\
    getEstimatedTotalSize uniform25 h1 = (Normal total, h1) /\
    let maxOffset := Z.min (total - viewportSize uniform25) (offset m) in
    let minOffset := Z.max 0 (offset m - viewportSize uniform25 + size m) in
    let midpoint :=
      (inject_Z minOffset + inject_Z (maxOffset - minOffset) / 2)%Q in
    getOffsetForIndexAndAlignment uniform25 10 AlignStart 0 fiveMeasured
      = (Normal maxOffset, h1) /\
    getOffsetForIndexAndAlignment uniform25 10 AlignEnd 0 fiveMeasured
      = (Normal minOffset, h1) /\
    getOffsetForIndexAndAlignment uniform25 10 AlignCenter 0 fiveMeasured
      = (Normal ((minOffset + maxOffset + 1) / 2), h1) /\
    nearestIntegerHalfUp midpoint ((minOffset + maxOffset + 1) / 2) /\
    (forall r, nearestIntegerHalfUp midpoint r ->
               r = (minOffset + maxOffset + 1) / 2) /\
    getOffsetForIndexAndAlignment uniform25 10 AlignCenter 0 fiveMeasured
      = (Normal (Math_round midpoint), h1).
Proof.
  split; [exact uniform25_positive |]. split; [exact fiveMeasured_wf |].
  split; [lia |].
  apply (getOffsetForIndexAndAlignment_start_end_center
           uniform25 10 0 fiveMeasured);
    [exact uniform25_positive | exact fiveMeasured_wf | lia].
Defined.

(** A half is rounded up: for item 1 of a list of sizes 25, 26, ... in a
    viewport of 100, [minOffset] is 0, [maxOffset] is 25 and ['center']
    returns 13. *)
Example center_alignment_rounds_half_up :
  fst (getOffsetForIndexAndAlignment
         (mkProps vertical 100 50 20 (fun i => 25 + i)) 1 AlignCenter 0
         (initHeap (Some 25))) = Normal 13.
Proof. vm_compute. reflexivity. Qed.

(** C5 does not hold when the item does not fit the viewport.  For the single
    item of 200 in a viewport of 100, [minOffset] is 100 and [maxOffset] is 0.
    From scroll offset 0, which is [maxOffset] itself, ['auto'] returns
    [minOffset], the bound farther away, where the claim (and the documented
    "scroll as little as possible") asks for [maxOffset], that is for no
    scroll at all; and from 50, at equal distance from both, it returns
    [maxOffset], not [minOffset]. *)
Lemma auto_alignment_returns_farther_bound :
  fst (getOffsetForIndexAndAlignment tallItem 0 AlignEnd 0 (initHeap None))
    = Normal 100 /\
  fst (getOffsetForIndexAndAlignment tallItem 0 AlignStart 0 (initHeap None))
    = Normal 0 /\
  ~ (100 <= 0 <= 0) /\
  Z.abs (0 - 0) < Z.abs (0 - 100) /\
  fst (getOffsetForIndexAndAlignment tallItem 0 AlignAuto 0 (initHeap None))
    = Normal 100 /\
  Z.abs (50 - 100) = Z.abs (50 - 0) /\
  fst (getOffsetForIndexAndAlignment tallItem 0 AlignAuto 50 (initHeap None))
    = Normal 0.
Proof. vm_compute. repeat split; try congruence. intros [H _]. now apply H. Qed.

(** The ['auto'] branch (also taken for an unknown alignment) as it is
    computed: a scroll offset within [minOffset, maxOffset] is returned
    unchanged; otherwise the signed test
    [scrollOffset - minOffset < maxOffset - scrollOffset] chooses between the
    two bounds. *)
Theorem getOffsetForIndexAndAlignment_auto props index align scrollOffset h :
  positiveSizes props -> wf (inst h) -> 0 <= index ->
  align = AlignAuto \/ align = AlignOther ->
  exists m total h1 r,
    getItemMetadata props index h = (Normal (Some m), h1) /\
    getEstimatedTotalSize props h1 = (Normal total, h1) /\
    getOffsetForIndexAndAlignment props index align scrollOffset h
      = (Normal r, h1) /\
    let maxOffset := Z.min (total - viewportSize props) (offset m) in
    let minOffset := Z.max 0 (offset m - viewportSize props + size m) in
    (minOffset <= scrollOffset <= maxOffset -> r = scrollOffset) /\
    (~ (minOffset <= scrollOffset <= maxOffset) ->
     r = if scrollOffset - minOffset <? maxOffset - scrollOffset
         then minOffset else maxOffset) /\
    (minOffset <= maxOffset -> scrollOffset < minOffset ->
     r = minOffset /\
     Z.abs (scrollOffset - minOffset) <= Z.abs (scrollOffset - maxOffset)) /\
    (minOffset <= maxOffset -> maxOffset < scrollOffset ->
     r = maxOffset /\
     Z.abs (scrollOffset - maxOffset) <= Z.abs (scrollOffset - minOffset)).
Proof.
  intros Hpos Hwf Hi Halign.
  destruct (alignment_prelude props index h Hpos Hwf Hi)
    as (total & h1 & Hrun & _ & _ & Ht).
  set (m := metadataAt props (inst h) index) in *.
  set (maxOffset := Z.min (total - viewportSize props) (offset m)).
  set (minOffset := Z.max 0 (offset m - viewportSize props + size m)).
  exists m, total, h1,
    (if (scrollOffset >=? minOffset) && (scrollOffset <=? maxOffset)
     then scrollOffset
     else if scrollOffset - minOffset <? maxOffset - scrollOffset
          then minOffset else maxOffset).
  split; [exact Hrun |]. split; [exact Ht |]. split.
  - unfold getOffsetForIndexAndAlignment, bind. rewrite Hrun.
    cbn [defined ret]. rewrite Ht. fold maxOffset minOffset.
    destruct Halign as [-> | ->];
      destruct ((scrollOffset >=? minOffset) && (scrollOffset <=? maxOffset));
      try reflexivity;
      destruct (scrollOffset - minOffset <? maxOffset - scrollOffset);
      reflexivity.
  - cbv zeta. fold maxOffset minOffset.
    destruct (Z.geb_spec scrollOffset minOffset),
             (Z.leb_spec scrollOffset maxOffset),
             (Z.ltb_spec (scrollOffset - minOffset) (maxOffset - scrollOffset));
      cbn [andb]; repeat split; intros; lia.
Qed.

Lemma getOffsetForIndexAndAlignment_auto_witness :
  positiveSizes uniform25 /\ wf (inst fiveMeasured) /\ 0 <= 10 /\
  exists m total h1 r,
    getItemMetadata uniform25 10 fiveMeasured = (Normal (Some m), h1) /\
    getEstimatedTotalSize uniform25 h1 = (Normal total, h1) /\
    getOffsetForIndexAndAlignment uniform25 10 AlignAuto 0 fiveMeasured
      = (Normal r, h1) /\
    let maxOffset := Z.min (total - viewportSize uniform25) (offset m) in
    let minOffset := Z.max 0 (offset m - viewportSize uniform25 + size m) in
    (minOffset <= 0 <= maxOffset -> r = 0) /\
    (~ (minOffset <= 0 <= maxOffset) ->
     r = if 0 - minOffset <? maxOffset - 0 then minOffset else maxOffset) /\
    (minOffset <= maxOffset -> 0 < minOffset ->
     r = minOffset /\ Z.abs (0 - minOffset) <= Z.abs (0 - maxOffset)) /\
    (minOffset <= maxOffset -> maxOffset < 0 ->
     r = maxOffset /\ Z.abs (0 - maxOffset) <= Z.abs (0 - minOffset)).
Proof.
  split; [exact uniform25_positive |]. split; [exact fiveMeasured_wf |].
  split; [lia |].
  apply (getOffsetForIndexAndAlignment_auto
           uniform25 10 AlignAuto 0 fiveMeasured);
    [exact uniform25_positive | exact fiveMeasured_wf | lia | now left].
Defined.

(** X21: ['auto'] scrolls as little as possible whenever
    [minOffset <= maxOffset].  For ['auto'] and for an unknown alignment the
    result then lies in [minOffset, maxOffset]; it is the current scroll offset
    when that lies in the interval, [minOffset] when it lies below and
    [maxOffset] when it lies above; and no offset of the interval is nearer to
    the current scroll offset. *)
Theorem auto_alignment_scrolls_as_little_as_possible
  props index align scrollOffset h :
  positiveSizes props -> wf (inst h) -> 0 <= index ->
  align = AlignAuto \/ align = AlignOther ->
  exists m total h1 r,
    getItemMetadata props index h = (Normal (Some m), h1) /\
    getEstimatedTotalSize props h1 = (Normal total, h1) /\
    getOffsetForIndexAndAlignment props index align scrollOffset h
      = (Normal r, h1) /\
    let maxOffset := Z.min (total - viewportSize props) (offset m) in
    let minOffset := Z.max 0 (offset m - viewportSize props + size m) in
    (minOffset <= maxOffset ->
     minOffset <= r <= maxOffset /\
     (minOffset <= scrollOffset <= maxOffset -> r = scrollOffset) /\
     (scrollOffset < minOffset -> r = minOffset) /\
     (maxOffset < scrollOffset -> r = maxOffset) /\
     (forall x, minOffset <= x <= maxOffset ->
        Z.abs (scrollOffset - r) <= Z.abs (scrollOffset - x))).
Proof.
  intros Hpos Hwf Hi Halign.
  destruct (getOffsetForIndexAndAlignment_auto props index align scrollOffset
              h Hpos Hwf Hi Halign)
    as (m & total & h1 & r & Hrun & Ht & Hr & Hin & _ & Hbelow & Habove).
  exists m, total, h1, r.
  split; [exact Hrun |]. split; [exact Ht |]. split; [exact Hr |].
  cbv zeta in *. intros Hmm.
  destruct (Z_lt_le_dec scrollOffset
              (Z.max 0 (offset m - viewportSize props + size m)))
    as [Hlo | Hlo].
  - destruct (Hbelow Hmm Hlo) as [-> _]. repeat split; intros; lia.
  - destruct (Z_lt_le_dec
                (Z.min (total - viewportSize props) (offset m)) scrollOffset)
      as [Hhi | Hhi].
    + destruct (Habove Hmm Hhi) as [-> _]. repeat split; intros; lia.
    + rewrite (Hin ltac:(lia)). repeat split; intros; lia.
Qed.

Lemma auto_alignment_scrolls_as_little_as_possible_witness :
  positiveSizes uniform25 /\ wf (inst fiveMeasured) /\ 0 <= 10 /\
  (AlignAuto = AlignAuto \/ AlignAuto = AlignOther) /\
  exists m total h1 r,
    getItemMetadata uniform25 10 fiveMeasured = (Normal (Some m), h1) /\
    getEstimatedTotalSize uniform25 h1 = (Normal total, h1) /\
    getOffsetForIndexAndAlignment uniform25 10 AlignAuto 0 fiveMeasured
      = (Normal r, h1) /\
    let maxOffset := Z.min (total - viewportSize uniform25) (offset m) in
    let minOffset := Z.max 0 (offset m - viewportSize uniform25 + size m) in
    (minOffset <= maxOffset ->
     minOffset <= r <= maxOffset /\
     (minOffset <= 0 <= maxOffset -> r = 0) /\
     (0 < minOffset -> r = minOffset) /\
     (maxOffset < 0 -> r = maxOffset) /\
     (forall x, minOffset <= x <= maxOffset ->
        Z.abs (0 - r) <= Z.abs (0 - x))).
Proof.
  split; [exact uniform25_positive |]. split; [exact fiveMeasured_wf |].
  split; [lia |]. split; [now left |].
  apply (auto_alignment_scrolls_as_little_as_possible
           uniform25 10 AlignAuto 0 fiveMeasured);
    [exact uniform25_positive | exact fiveMeasured_wf | lia | now left].
Defined.

(** ** The window calculator *)

(** The loop entered at [stopIndex] with the end of that item as running
    offset: it stops at the first item that ends at or beyond [maxOffset], or
    at the last item. *)
Lemma stopIndexLoop_spec props maxOffset stopIndex offset_ h :
  positiveSizes props -> wf (inst h) ->
  0 <= stopIndex <= lastMeasuredIndex (inst h) ->
  offset_ = offsetAt props (inst h) (stopIndex + 1) ->
  exists r h',
    stopIndexLoop props maxOffset stopIndex offset_ h = (Normal r, h') /\
    extends props h h' /\
    stopIndex <= r <= lastMeasuredIndex (inst h') /\
    r <= Z.max stopIndex (itemCount props - 1) /\
    (forall k, stopIndex <= k < r ->
       offsetAt props (inst h) (k + 1) < maxOffset) /\
    (r < itemCount props - 1 ->
       maxOffset <= offsetAt props (inst h) (r + 1)).
Proof.
  funelim (stopIndexLoop props maxOffset stopIndex offset_ h);
    intros Hpos Hwf Hstop Hoff;
    try match goal with
        | Hrun' : getItemMetadata _ _ _ = _ |- _ =>
            destruct (getItemMetadata_spec props (stopIndex + 1) h Hwf Hpos
                        ltac:(lia)) as (h1 & Hrun & Hext & HL);
            rewrite Hrun in Hrun'; try discriminate;
            injection Hrun' as Hm Hh; subst itemMetadata h'
        end;
    repeat match goal with
           | Hb : (_ <? _) = true |- _ => apply Z.ltb_lt in Hb
           | Hb : (_ <? _) = false |- _ => apply Z.ltb_ge in Hb
           end.
  - exists stopIndex, h. split; [reflexivity |].
    split; [now apply extends_refl |]. repeat split; try lia.
  - exists stopIndex, h. split; [reflexivity |].
    split; [now apply extends_refl |]. repeat split; try lia.
  - pose proof (fun i => extends_offsetAt props h h1 i Hext) as Hsame.
    destruct (H Hpos (proj1 Hext) ltac:(lia)) as
      (r & h2 & Hrun2 & Hext2 & Hr & Hmax & Hbelow & Hat).
    { rewrite Hsame. rewrite (offsetAt_succ _ _ (stopIndex + 1)) by lia.
      rewrite Hoff. reflexivity. }
    exists r, h2. split; [exact Hrun2 |].
    split; [eapply extends_trans; eauto |].
    split; [lia |]. split; [lia |]. split.
    + intros k Hk. destruct (Z.eq_dec k stopIndex) as [Hek | Hne].
      * rewrite Hek, <- Hoff. assumption.
      * rewrite <- Hsame. apply Hbelow. lia.
    + intros Hlt. rewrite <- Hsame. now apply Hat.
Qed.

(** C6: for a start index in [0, itemCount), [getStopIndexForStartIndex]
    returns an index [r] between the start index and [itemCount - 1] such that
    every item from the start index up to [r - 1] ends below
    [scrollOffset + viewportSize], and [r] itself ends at or beyond it unless
    [r] is the last item: the smallest index from the start on whose end
    reaches [scrollOffset + viewportSize], or [itemCount - 1] when there is
    none.  Read on the offsets: every item after the start index up to [r]
    starts below [scrollOffset + viewportSize], and the item after [r], if
    there is one, does not.  The items up to [r] are measured in the state it
    leaves. *)
Theorem getStopIndexForStartIndex_correct props startIndex scrollOffset h :
  positiveSizes props -> wf (inst h) ->
  0 <= startIndex < itemCount props ->
  let itemEnd k := offset (metadataAt props (inst h) k)
                   + size (metadataAt props (inst h) k) in
  exists r h',
    getStopIndexForStartIndex props startIndex scrollOffset h
      = (Normal r, h') /\
    startIndex <= r <= itemCount props - 1 /\
    (forall k, startIndex <= k < r ->
       itemEnd k < scrollOffset + viewportSize props) /\
    (scrollOffset + viewportSize props <= itemEnd r \/
     (r = itemCount props - 1 /\
      forall k, startIndex <= k <= itemCount props - 1 ->
        itemEnd k < scrollOffset + viewportSize props)) /\
    (forall k, startIndex < k <= r ->
       offset (metadataAt props (inst h) k)
         < scrollOffset + viewportSize props) /\
    (r < itemCount props - 1 ->
       scrollOffset + viewportSize props
         <= offset (metadataAt props (inst h) (r + 1))) /\
    (forall k, 0 <= k <= r ->
       getItemMetadata props k h'
         = (Normal (Some (metadataAt props (inst h) k)), h')).
Proof.
  intros Hpos Hwf Hstart itemEnd.
  assert (HitemEnd : forall k, 0 <= k ->
            itemEnd k = offsetAt props (inst h) (k + 1)).
  { intros k Hk. unfold itemEnd. cbn [metadataAt offset size].
    now rewrite offsetAt_succ. }
  destruct (getItemMetadata_spec props startIndex h Hwf Hpos ltac:(lia))
    as (h1 & Hrun & Hext & HL).
  pose proof (fun i => extends_offsetAt props h h1 i Hext) as Hsame.
  destruct (stopIndexLoop_spec props (scrollOffset + viewportSize props)
              startIndex (itemEnd startIndex) h1 Hpos (proj1 Hext))
    as (r & h2 & Hrun2 & Hext2 & Hr & Hmax & Hbelow & Hat);
    [lia | rewrite Hsame; apply HitemEnd; lia |].
  exists r, h2. split.
  { unfold getStopIndexForStartIndex, bind. rewrite Hrun. exact Hrun2. }
  split; [lia |].
  assert (Hall : forall k, startIndex <= k < r ->
            itemEnd k < scrollOffset + viewportSize props).
  { intros k Hk. rewrite HitemEnd by lia. rewrite <- Hsame. now apply Hbelow. }
  split; [exact Hall |]. split; [| split; [| split]].
  - destruct (Z_lt_le_dec r (itemCount props - 1)) as [Hlt | Hge].
    + left. rewrite HitemEnd by lia. rewrite <- Hsame. now apply Hat.
    + destruct (Z_le_gt_dec (scrollOffset + viewportSize props) (itemEnd r));
        [now left | right].
      split; [lia |]. intros k Hk.
      destruct (Z.eq_dec k r) as [-> | Hne]; [lia | apply Hall; lia].
  - intros k Hk. specialize (Hall (k - 1) ltac:(lia)).
    rewrite HitemEnd in Hall by lia.
    now replace (k - 1 + 1) with k in Hall by lia.
  - intros Hlt. change (offset (metadataAt props (inst h) (r + 1)))
      with (offsetAt props (inst h) (r + 1)).
    rewrite <- Hsame. now apply Hat.
  - intros k Hk. rewrite getItemMetadata_cached by lia.
    rewrite (wf_lookup props) by (try apply Hext2; lia).
    rewrite (extends_metadataAt props h1 h2) by (auto; lia).
    rewrite (extends_metadataAt props h h1) by (auto; lia). reflexivity.
Qed.

Lemma getStopIndexForStartIndex_correct_witness :
  positiveSizes uniform25 /\ wf (inst fiveMeasured) /\
  0 <= 2 < itemCount uniform25 /\
  let itemEnd k := offset (metadataAt uniform25 (inst fiveMeasured) k)
                   + size (metadataAt uniform25 (inst fiveMeasured) k) in
  exists r h',
    getStopIndexForStartIndex uniform25 2 60 fiveMeasured = (Normal r, h') /\
    2 <= r <= itemCount uniform25 - 1 /\
    (forall k, 2 <= k < r -> itemEnd k < 60 + viewportSize uniform25) /\
    (60 + viewportSize uniform25 <= itemEnd r \/
     (r = itemCount uniform25 - 1 /\
      forall k, 2 <= k <= itemCount uniform25 - 1 ->
        itemEnd k < 60 + viewportSize uniform25)) /\
    (forall k, 2 < k <= r ->
       offset (metadataAt uniform25 (inst fiveMeasured) k)
         < 60 + viewportSize uniform25) /\
    (r < itemCount uniform25 - 1 ->
       60 + viewportSize uniform25
         <= offset (metadataAt uniform25 (inst fiveMeasured) (r + 1))) /\
    (forall k, 0 <= k <= r ->
       getItemMetadata uniform25 k h'
         = (Normal (Some (metadataAt uniform25 (inst fiveMeasured) k)), h')).
Proof.
  split; [exact uniform25_positive |]. split; [exact fiveMeasured_wf |].
  split; [vm_compute; split; [discriminate | reflexivity] |].
  apply (getStopIndexForStartIndex_correct uniform25 2 60 fiveMeasured);
    [exact uniform25_positive | exact fiveMeasured_wf
    | vm_compute; split; [discriminate | reflexivity]].
Defined.

(** ** Measuring, in full *)

Lemma heap_ext (h1 h2 : Heap) :
  (forall j, itemMetadataMap (inst h1) !! j = itemMetadataMap (inst h2) !! j) ->
  lastMeasuredIndex (inst h1) = lastMeasuredIndex (inst h2) ->
  estimatedItemSize (inst h1) = estimatedItemSize (inst h2) ->
  itemSizeCalls h1 = itemSizeCalls h2 ->
  h1 = h2.
Proof.
  destruct h1 as [[m1 e1 l1] c1], h2 as [[m2 e2 l2] c2]. cbn.
  intros Hm -> -> ->. f_equal. f_equal. now apply map_eq.
Qed.

Lemma loggedRange_app i n k :
  loggedRange i (n + k) = loggedRange (i + Z.of_nat n) k ++ loggedRange i n.
Proof.
  revert i. induction n as [| n IH]; intros i.
  - cbn. rewrite Z.add_0_r. now rewrite app_nil_r.
  - cbn [Nat.add loggedRange]. rewrite IH.
    replace (i + 1 + Z.of_nat n) with (i + Z.of_nat (S n)) by lia.
    now rewrite app_assoc.
Qed.

Lemma loggedRange_length i n : length (loggedRange i n) = n.
Proof.
  revert i. induction n as [| n IH]; intros i; [reflexivity |].
  cbn [loggedRange]. rewrite length_app, IH. cbn. lia.
Qed.

Lemma loggedRange_elem i n x :
  x ∈ loggedRange i n <-> i <= x < i + Z.of_nat n.
Proof.
  revert i. induction n as [| n IH]; intros i.
  - cbn. rewrite elem_of_nil. lia.
  - cbn [loggedRange]. rewrite elem_of_app, IH, list_elem_of_singleton. lia.
Qed.

(** The state a measurement leaves, entry by entry. *)
Lemma getItemMetadata_measuring props index h :
  wf (inst h) -> lastMeasuredIndex (inst h) < index ->
  exists h',
    getItemMetadata props index h
      = (Normal (Some (metadataAt props (inst h) index)), h') /\
    lastMeasuredIndex (inst h') = index /\
    estimatedItemSize (inst h') = estimatedItemSize (inst h) /\
    itemSizeCalls h' =
      loggedRange (lastMeasuredIndex (inst h) + 1)
                  (Z.to_nat (index - lastMeasuredIndex (inst h)))
      ++ itemSizeCalls h /\
    (forall j, lastMeasuredIndex (inst h) < j <= index ->
       itemMetadataMap (inst h') !! j
         = Some (mkItemMetadata (offsetAt props (inst h) j)
                                (itemSize props j))) /\
    (forall j, ~ (lastMeasuredIndex (inst h) < j <= index) ->
       itemMetadataMap (inst h') !! j = itemMetadataMap (inst h) !! j).
Proof.
  intros Hwf Hgt. pose proof Hwf as [HL Hent].
  unfold getItemMetadata, bind at 1, readLastMeasuredIndex.
  destruct (Z.gtb_spec index (lastMeasuredIndex (inst h))); [| lia].
  set (L := lastMeasuredIndex (inst h)) in *.
  assert (Hstart : exists o,
    (if L >=? 0
     then itemMetadata <- bind (readEntry L) defined ;;
          ret (offset itemMetadata + size itemMetadata)
     else ret 0) h = (Normal o, h) /\ o = offsetAt props (inst h) (L + 1)).
  { rewrite offsetAt_stored by (fold L; lia). destruct (Z.geb_spec L 0).
    - destruct (Hent L ltac:(lia)) as (m & Hm & _).
      exists (offset m + size m). unfold bind, readEntry. fold L.
      rewrite Hm. cbn. split; [reflexivity |]. now apply wf_end_prefix.
    - exists 0. split; [reflexivity |].
      unfold storedPrefix. rewrite sumZ_neg; lia. }
  destruct Hstart as (o & Hrun0 & Ho).
  unfold bind at 1. unfold bind at 1. rewrite Hrun0.
  destruct (measureFrom_spec props (Z.to_nat (index - L)) (L + 1) o h
              ltac:(lia))
    as (h1 & Hrun & HL1 & He1 & Hlog & Hout & Hin).
  unfold bind at 1. rewrite Hrun.
  unfold writeLastMeasuredIndex, readEntry.
  cbn [inst itemSizeCalls lastMeasuredIndex estimatedItemSize itemMetadataMap].
  rewrite Z2Nat.id in Hout, Hin by lia.
  assert (Hoff : forall j, L < j <= index ->
    o + (sumZ (itemSize props) j - sumZ (itemSize props) (L + 1)) =
    offsetAt props (inst h) j).
  { intros j Hj. rewrite Ho. unfold offsetAt. symmetry.
    apply sumZ_splice; [lia | intros; reflexivity |].
    intros k Hk. unfold sizeAt. fold L.
    destruct (Z.leb_spec k L); [lia | reflexivity]. }
  eexists. split.
  { rewrite Hin by lia. rewrite Hoff by lia. unfold metadataAt, sizeAt. fold L.
    destruct (Z.leb_spec index L); [lia | reflexivity]. }
  cbn [inst itemSizeCalls lastMeasuredIndex estimatedItemSize itemMetadataMap].
  split; [reflexivity |]. split; [exact He1 |]. split; [exact Hlog |]. split.
  - intros j Hj. rewrite Hin by lia. now rewrite Hoff by lia.
  - intros j Hj. apply Hout. lia.
Qed.

(** X1: a call of [getItemMetadata] beyond the watermark of a well-formed
    state returns the exact offset of the item and the size [itemSize] gives
    for it, moves the watermark to the index, calls [itemSize] exactly once
    for every index from the old watermark (excluded) to the index, in
    increasing order, writes exactly those entries and leaves the estimated
    item size alone. *)
Theorem getItemMetadata_measures_each_item_once props index h :
  wf (inst h) -> lastMeasuredIndex (inst h) < index ->
  exists h',
    getItemMetadata props index h
      = (Normal (Some (mkItemMetadata (offsetAt props (inst h) index)
                                      (itemSize props index))), h') /\
    lastMeasuredIndex (inst h') = index /\
    estimatedItemSize (inst h') = estimatedItemSize (inst h) /\
    itemSizeCalls h' =
      loggedRange (lastMeasuredIndex (inst h) + 1)
                  (Z.to_nat (index - lastMeasuredIndex (inst h)))
      ++ itemSizeCalls h /\
    Z.of_nat (length (itemSizeCalls h'))
      = Z.of_nat (length (itemSizeCalls h))
        + (index - lastMeasuredIndex (inst h)) /\
    (forall j, lastMeasuredIndex (inst h) < j <= index ->
       itemMetadataMap (inst h') !! j
         = Some (mkItemMetadata (offsetAt props (inst h) j)
                                (itemSize props j))) /\
    (forall j, ~ (lastMeasuredIndex (inst h) < j <= index) ->
       itemMetadataMap (inst h') !! j = itemMetadataMap (inst h) !! j).
Proof.
  intros Hwf Hgt.
  destruct (getItemMetadata_measuring props index h Hwf Hgt)
    as (h' & Hrun & HL & He & Hlog & Hin & Hout).
  exists h'. split.
  { rewrite Hrun. unfold metadataAt, sizeAt.
    destruct (Z.leb_spec index (lastMeasuredIndex (inst h))); [lia | easy]. }
  repeat split; auto.
  rewrite Hlog, length_app, loggedRange_length. lia.
Qed.

Lemma getItemMetadata_measures_each_item_once_witness :
  wf (inst fiveMeasured) /\ lastMeasuredIndex (inst fiveMeasured) < 7 /\
  exists h',
    getItemMetadata uniform25 7 fiveMeasured
      = (Normal (Some (mkItemMetadata
                         (offsetAt uniform25 (inst fiveMeasured) 7)
                         (itemSize uniform25 7))), h') /\
    lastMeasuredIndex (inst h') = 7 /\
    estimatedItemSize (inst h') = estimatedItemSize (inst fiveMeasured) /\
    itemSizeCalls h' =
      loggedRange (lastMeasuredIndex (inst fiveMeasured) + 1)
                  (Z.to_nat (7 - lastMeasuredIndex (inst fiveMeasured)))
      ++ itemSizeCalls fiveMeasured /\
    Z.of_nat (length (itemSizeCalls h'))
      = Z.of_nat (length (itemSizeCalls fiveMeasured))
        + (7 - lastMeasuredIndex (inst fiveMeasured)) /\
    (forall j, lastMeasuredIndex (inst fiveMeasured) < j <= 7 ->
       itemMetadataMap (inst h') !! j
         = Some (mkItemMetadata (offsetAt uniform25 (inst fiveMeasured) j)
                                (itemSize uniform25 j))) /\
    (forall j, ~ (lastMeasuredIndex (inst fiveMeasured) < j <= 7) ->
       itemMetadataMap (inst h') !! j
         = itemMetadataMap (inst fiveMeasured) !! j).
Proof.
  split; [exact fiveMeasured_wf |]. split; [vm_compute; reflexivity |].
  apply (getItemMetadata_measures_each_item_once uniform25 7 fiveMeasured);
    [exact fiveMeasured_wf | vm_compute; reflexivity].
Defined.

Lemma getItemMetadata_watermark props index h :
  wf (inst h) ->
  lastMeasuredIndex (inst (snd (getItemMetadata props index h)))
    = Z.max (lastMeasuredIndex (inst h)) index.
Proof.
  intros Hwf.
  destruct (Z_le_gt_dec index (lastMeasuredIndex (inst h))) as [Hle | Hgt].
  - rewrite getItemMetadata_cached by lia. cbn [snd]. lia.
  - destruct (getItemMetadata_measuring props index h Hwf ltac:(lia))
      as (h' & Hrun & HL & _). rewrite Hrun. cbn [snd]. lia.
Qed.

(** X2: measuring composes: from a well-formed state, [getItemMetadata] at
    [i] followed by [getItemMetadata] at [j] leaves exactly the state that one
    call at the larger of the two leaves, the log of [itemSize] calls
    included, and returns the entry of [j] in it. *)
Theorem getItemMetadata_twice props i j h :
  positiveSizes props -> wf (inst h) ->
  let final := snd (getItemMetadata props (Z.max i j) h) in
  (getItemMetadata props i ;;; getItemMetadata props j) h
    = (Normal (itemMetadataMap (inst final) !! j), final).
Proof.
  intros Hpos Hwf final. subst final. unfold bind.
  pose proof (proj1 Hwf) as HL.
  destruct (Z_le_gt_dec i (lastMeasuredIndex (inst h))) as [Hi | Hi].
  { rewrite (getItemMetadata_cached props i) by lia.
    destruct (Z_le_gt_dec j (lastMeasuredIndex (inst h))) as [Hj | Hj].
    - rewrite !getItemMetadata_cached by lia. reflexivity.
    - replace (Z.max i j) with j by lia.
      destruct (getItemMetadata_measuring props j h Hwf ltac:(lia))
        as (h' & Hrun & _ & _ & _ & Hin & _).
      rewrite Hrun. cbn [snd]. rewrite Hin by lia.
      unfold metadataAt, sizeAt.
      destruct (Z.leb_spec j (lastMeasuredIndex (inst h)));
        [lia | reflexivity]. }
  destruct (getItemMetadata_measuring props i h Hwf ltac:(lia))
    as (h1 & Hrun1 & HL1 & He1 & Hlog1 & Hin1 & Hout1).
  destruct (getItemMetadata_spec props i h Hwf Hpos ltac:(lia))
    as (h1' & Hrun1' & Hext1 & _).
  rewrite Hrun1 in Hrun1'. injection Hrun1' as <-.
  rewrite Hrun1.
  destruct (Z_le_gt_dec j i) as [Hj | Hj].
  { replace (Z.max i j) with i by lia. rewrite Hrun1. cbn [snd].
    now rewrite getItemMetadata_cached by lia. }
  replace (Z.max i j) with j by lia.
  destruct (getItemMetadata_measuring props j h1 (proj1 Hext1) ltac:(lia))
    as (h2 & Hrun2 & HL2 & He2 & Hlog2 & Hin2 & Hout2).
  destruct (getItemMetadata_measuring props j h Hwf ltac:(lia))
    as (h3 & Hrun3 & HL3 & He3 & Hlog3 & Hin3 & Hout3).
  rewrite HL1 in Hlog2, Hin2, Hout2.
  rewrite Hrun2, Hrun3. cbn [snd].
  assert (Heq : h2 = h3).
  { apply heap_ext; try congruence.
    - intros q.
      destruct (Z_le_gt_dec q (lastMeasuredIndex (inst h))) as [Hq | Hq].
      + rewrite Hout2, Hout1, Hout3 by lia. reflexivity.
      + destruct (Z_le_gt_dec q i) as [Hqi | Hqi].
        * rewrite Hout2, Hin1, Hin3 by lia. reflexivity.
        * destruct (Z_le_gt_dec q j) as [Hqj | Hqj].
          -- rewrite Hin2, Hin3 by lia.
             now rewrite (extends_offsetAt props h h1 q Hext1).
          -- rewrite Hout2, Hout1, Hout3 by lia. reflexivity.
    - rewrite Hlog2, Hlog1, Hlog3, app_assoc. f_equal.
      replace (Z.to_nat (j - lastMeasuredIndex (inst h)))
        with (Z.to_nat (i - lastMeasuredIndex (inst h))
              + Z.to_nat (j - i))%nat by lia.
      rewrite loggedRange_app. do 2 f_equal. lia. }
  rewrite Heq. f_equal. f_equal.
  rewrite Hin3 by lia. unfold metadataAt, sizeAt.
  rewrite (extends_offsetAt props h h1 j Hext1).
  destruct (Z.leb_spec j (lastMeasuredIndex (inst h1))); [lia | reflexivity].
Qed.

Lemma getItemMetadata_twice_witness :
  positiveSizes uniform25 /\ wf (inst fiveMeasured) /\
  (getItemMetadata uniform25 9 ;;; getItemMetadata uniform25 6) fiveMeasured
    = (Normal (itemMetadataMap
                 (inst (snd (getItemMetadata uniform25 (Z.max 9 6)
                                             fiveMeasured))) !! 6),
       snd (getItemMetadata uniform25 (Z.max 9 6) fiveMeasured)).
Proof.
  split; [exact uniform25_positive |]. split; [exact fiveMeasured_wf |].
  apply (getItemMetadata_twice uniform25 9 6 fiveMeasured);
    [exact uniform25_positive | exact fiveMeasured_wf].
Defined.

(** ** What a call measures *)

Lemma measuredOnce_refl h : measuredOnce h h.
Proof.
  unfold measuredOnce. now rewrite Z.sub_diag.
Qed.

Lemma measuredOnce_trans h1 h2 h3 :
  lastMeasuredIndex (inst h1) <= lastMeasuredIndex (inst h2) ->
  lastMeasuredIndex (inst h2) <= lastMeasuredIndex (inst h3) ->
  measuredOnce h1 h2 -> measuredOnce h2 h3 -> measuredOnce h1 h3.
Proof.
  unfold measuredOnce. intros H12 H23 Hlog2 Hlog3.
  rewrite Hlog3, Hlog2, app_assoc. f_equal.
  replace (Z.to_nat (lastMeasuredIndex (inst h3) - lastMeasuredIndex (inst h1)))
    with (Z.to_nat (lastMeasuredIndex (inst h2) - lastMeasuredIndex (inst h1))
          + Z.to_nat (lastMeasuredIndex (inst h3)
                      - lastMeasuredIndex (inst h2)))%nat by lia.
  rewrite loggedRange_app. do 2 f_equal. lia.
Qed.

Lemma measuredUpTo_refl props bound h :
  wf (inst h) -> measuredUpTo props bound h h.
Proof.
  intros Hwf. split; [now apply extends_refl |].
  split; [apply measuredOnce_refl | lia].
Qed.

Lemma measuredUpTo_trans props bound h1 h2 h3 :
  measuredUpTo props bound h1 h2 -> measuredUpTo props bound h2 h3 ->
  measuredUpTo props bound h1 h3.
Proof.
  intros (He2 & Hl2 & Hb2) (He3 & Hl3 & Hb3).
  split; [eapply extends_trans; eauto |]. split; [| lia].
  eapply measuredOnce_trans; eauto; [apply He2 | apply He3].
Qed.

Lemma measuredUpTo_weaken props bound bound' h h' :
  bound <= Z.max (lastMeasuredIndex (inst h)) bound' ->
  measuredUpTo props bound h h' -> measuredUpTo props bound' h h'.
Proof. intros Hb (He & Hl & Hm). repeat split; auto; try apply He. lia. Qed.

Lemma measuredUpTo_getItemMetadata props bound index h :
  positiveSizes props -> wf (inst h) -> index <= bound ->
  measuredUpTo props bound h (snd (getItemMetadata props index h)).
Proof.
  intros Hpos Hwf Hb.
  split; [now apply continues_getItemMetadata |].
  pose proof (getItemMetadata_watermark props index h Hwf) as HL.
  split; [| lia].
  destruct (Z_le_gt_dec index (lastMeasuredIndex (inst h))) as [Hle | Hgt].
  - rewrite getItemMetadata_cached by lia. apply measuredOnce_refl.
  - destruct (getItemMetadata_measuring props index h Hwf ltac:(lia))
      as (h' & Hrun & HL' & _ & Hlog & _).
    rewrite Hrun. cbn [snd]. unfold measuredOnce. now rewrite HL', Hlog.
Qed.

Ltac measured_step Hpos h Hwf Heq bound :=
  match type of Heq with
  | getItemMetadata ?p ?i _ = _ =>
      pose proof (measuredUpTo_getItemMetadata p bound i h Hpos Hwf
                    ltac:(lia)) as Hc;
      rewrite Heq in Hc; cbn [snd] in Hc
  end.

Lemma measuredUpTo_binarySearch props bound high low offset_ h :
  positiveSizes props -> wf (inst h) -> high <= bound ->
  measuredUpTo props bound h
    (snd (findNearestItemBinarySearch props high low offset_ h)).
Proof.
  funelim (findNearestItemBinarySearch props high low offset_ h);
    intros Hpos Hwf Hb;
    try (pose proof (midpoint_bounds low high ltac:(lia)) as Hmid;
         measured_step Hpos h Hwf Heq bound).
  - destruct (low >? 0); now apply measuredUpTo_refl.
  - destruct (offset itemMetadata =? offset_); [exact Hc |].
    destruct (offset itemMetadata <? offset_);
      (eapply measuredUpTo_trans; [exact Hc |]); [apply H | apply H0];
      auto; try apply Hc; lia.
  - exact Hc.
  - exact Hc.
Qed.

Lemma measuredUpTo_exponentialProbe props bound index interval offset_ h :
  positiveSizes props -> wf (inst h) -> itemCount props - 1 <= bound ->
  measuredUpTo props bound h
    (snd (exponentialProbe props index interval offset_ h)).
Proof.
  funelim (exponentialProbe props index interval offset_ h);
    intros Hpos Hwf Hb; try measured_step Hpos h Hwf Heq bound.
  - now apply measuredUpTo_refl.
  - destruct (offset itemMetadata <? offset_); [| exact Hc].
    eapply measuredUpTo_trans; [exact Hc |]. apply H; auto. apply Hc.
  - exact Hc.
  - exact Hc.
Qed.

Lemma measuredUpTo_stopIndexLoop props bound maxOffset stopIndex offset_ h :
  positiveSizes props -> wf (inst h) -> itemCount props - 1 <= bound ->
  measuredUpTo props bound h
    (snd (stopIndexLoop props maxOffset stopIndex offset_ h)).
Proof.
  funelim (stopIndexLoop props maxOffset stopIndex offset_ h);
    intros Hpos Hwf Hb; try (now apply measuredUpTo_refl);
    match goal with
    | Hrun : getItemMetadata _ _ _ = _ |- _ =>
        measured_step Hpos h Hwf Hrun bound
    end; try exact Hc.
  eapply measuredUpTo_trans; [exact Hc |]. apply H; auto. apply Hc.
Qed.

Lemma getEstimatedTotalSize_heap props h :
  snd (getEstimatedTotalSize props h) = h.
Proof.
  unfold getEstimatedTotalSize, bind, readLastMeasuredIndex, readEntry.
  destruct (lastMeasuredIndex (inst h) >=? 0); [| reflexivity].
  now destruct (itemMetadataMap (inst h) !! lastMeasuredIndex (inst h)).
Qed.

(** The planner's only effect on the state is the measurement of the item. *)
Lemma getOffsetForIndexAndAlignment_heap props index align scrollOffset h :
  snd (getOffsetForIndexAndAlignment props index align scrollOffset h)
    = snd (getItemMetadata props index h).
Proof.
  unfold getOffsetForIndexAndAlignment, bind.
  destruct (getItemMetadata props index h) as [[[m |] | e] h1];
    cbn [defined ret throw snd]; try reflexivity.
  pose proof (getEstimatedTotalSize_heap props h1) as Ht.
  destruct (getEstimatedTotalSize props h1) as [[t | e] h2];
    cbn [snd] in *; subst h2; [| reflexivity].
  destruct align; try reflexivity;
    repeat match goal with
           | |- context [if ?b then _ else _] => destruct b
           end; reflexivity.
Qed.

Lemma measuredUpTo_findNearestItem props offset_ h :
  positiveSizes props -> wf (inst h) ->
  measuredUpTo props (itemCount props - 1) h
    (snd (findNearestItem props offset_ h)).
Proof.
  intros Hpos Hwf.
  unfold findNearestItem, bind at 1, readLastMeasuredIndex.
  unfold bind at 1. rewrite (lastMeasuredItemOffset_run props h Hwf).
  destruct (_ >=? offset_).
  - eapply measuredUpTo_weaken;
      [| apply (measuredUpTo_binarySearch props
                  (lastMeasuredIndex (inst h))); auto; lia]. lia.
  - unfold findNearestItemExponentialSearch, bind.
    pose proof (measuredUpTo_exponentialProbe props (itemCount props - 1)
                  (lastMeasuredIndex (inst h)) 1 offset_ h Hpos Hwf
                  ltac:(lia)) as Hp.
    destruct (exponentialProbe props _ 1 offset_ h) as [[r | e] h1];
      cbn [snd] in *; [| exact Hp].
    eapply measuredUpTo_trans; [exact Hp |].
    apply measuredUpTo_binarySearch; auto; [apply Hp | lia].
Qed.

Lemma measuredUpTo_getStopIndexForStartIndex props startIndex scrollOffset h :
  positiveSizes props -> wf (inst h) ->
  measuredUpTo props (Z.max startIndex (itemCount props - 1)) h
    (snd (getStopIndexForStartIndex props startIndex scrollOffset h)).
Proof.
  intros Hpos Hwf. unfold getStopIndexForStartIndex, bind.
  pose proof (measuredUpTo_getItemMetadata props
                (Z.max startIndex (itemCount props - 1)) startIndex h
                Hpos Hwf ltac:(lia)) as Hg.
  destruct (getItemMetadata props startIndex h) as [[[m |] | e] h1];
    cbn [defined ret throw snd] in *; try exact Hg.
  eapply measuredUpTo_trans; [exact Hg |].
  apply measuredUpTo_stopIndexLoop; auto; [apply Hg | lia].
Qed.

Lemma measuredUpTo_perform props c h :
  positiveSizes props -> wf (inst h) -> measures c ->
  measuredUpTo props (measurementBound props c) h (perform props c h).
Proof.
  intros Hpos Hwf Hc. destruct c; cbn [perform measurementBound];
    try contradiction.
  - apply measuredUpTo_getItemMetadata; auto; lia.
  - now apply measuredUpTo_findNearestItem.
  - now apply measuredUpTo_getStopIndexForStartIndex.
  - rewrite getOffsetForIndexAndAlignment_heap.
    apply measuredUpTo_getItemMetadata; auto; lia.
Qed.

(** X3: whatever a call other than an invalidation does, from a well-formed
    state it never lowers the watermark, never raises it beyond the larger
    of the old watermark and the last index the call can need, calls
    [itemSize] exactly once for each index between the old watermark
    (excluded) and the new one (included), in increasing order, so as many
    times as the watermark moved, and keeps the estimated item size and every
    entry up to the old watermark. *)
Theorem perform_measures_each_item_once props c h :
  positiveSizes props -> wf (inst h) -> measures c ->
  let h' := perform props c h in
  wf (inst h') /\
  lastMeasuredIndex (inst h) <= lastMeasuredIndex (inst h')
    <= Z.max (lastMeasuredIndex (inst h)) (measurementBound props c) /\
  itemSizeCalls h' =
    loggedRange (lastMeasuredIndex (inst h) + 1)
                (Z.to_nat (lastMeasuredIndex (inst h')
                           - lastMeasuredIndex (inst h)))
    ++ itemSizeCalls h /\
  Z.of_nat (length (itemSizeCalls h'))
    = Z.of_nat (length (itemSizeCalls h))
      + (lastMeasuredIndex (inst h') - lastMeasuredIndex (inst h)) /\
  estimatedItemSize (inst h') = estimatedItemSize (inst h) /\
  (forall j, j <= lastMeasuredIndex (inst h) ->
     itemMetadataMap (inst h') !! j = itemMetadataMap (inst h) !! j).
Proof.
  intros Hpos Hwf Hc h'.
  destruct (measuredUpTo_perform props c h Hpos Hwf Hc)
    as ((Hwf' & HL & He & Hkeep & _) & Hlog & Hb).
  fold h' in Hwf', HL, He, Hkeep, Hlog, Hb.
  split; [exact Hwf' |]. split; [lia |]. split; [exact Hlog |].
  split; [| split; [exact He | exact Hkeep]].
  rewrite Hlog, length_app, loggedRange_length. lia.
Qed.

Lemma perform_measures_each_item_once_witness :
  positiveSizes uniform25 /\ wf (inst fiveMeasured) /\
  measures (FindIndexForOffset 1000) /\
  let h' := perform uniform25 (FindIndexForOffset 1000) fiveMeasured in
  wf (inst h') /\
  lastMeasuredIndex (inst fiveMeasured) <= lastMeasuredIndex (inst h')
    <= Z.max (lastMeasuredIndex (inst fiveMeasured))
             (measurementBound uniform25 (FindIndexForOffset 1000)) /\
  itemSizeCalls h' =
    loggedRange (lastMeasuredIndex (inst fiveMeasured) + 1)
                (Z.to_nat (lastMeasuredIndex (inst h')
                           - lastMeasuredIndex (inst fiveMeasured)))
    ++ itemSizeCalls fiveMeasured /\
  Z.of_nat (length (itemSizeCalls h'))
    = Z.of_nat (length (itemSizeCalls fiveMeasured))
      + (lastMeasuredIndex (inst h') - lastMeasuredIndex (inst fiveMeasured)) /\
  estimatedItemSize (inst h') = estimatedItemSize (inst fiveMeasured) /\
  (forall j, j <= lastMeasuredIndex (inst fiveMeasured) ->
     itemMetadataMap (inst h') !! j
       = itemMetadataMap (inst fiveMeasured) !! j).
Proof.
  split; [exact uniform25_positive |]. split; [exact fiveMeasured_wf |].
  split; [exact I |].
  apply (perform_measures_each_item_once uniform25 (FindIndexForOffset 1000)
           fiveMeasured);
    [exact uniform25_positive | exact fiveMeasured_wf | exact I].
Defined.

(** ** The offset locator, for every offset *)

Lemma findNearestItem_clamped_run props offset_ h :
  positiveSizes props -> wf (inst h) ->
  0 <= lastMeasuredIndex (inst h) < itemCount props ->
  exists r h',
    findNearestItem props offset_ h = (Normal r, h') /\
    0 <= r <= itemCount props - 1 /\
    ((offset_ < 0 /\ r = 0) \/ offsetAt props (inst h) r <= offset_) /\
    (r < itemCount props - 1 -> offset_ < offsetAt props (inst h) (r + 1)).
Proof.
  intros Hpos Hwf HL.
  set (O := offsetAt props (inst h)) in *.
  assert (Hmono : forall i j, 0 <= i -> i < j -> O i < O j)
    by (intros; apply offsetAt_lt; auto).
  assert (Hmonole : forall i j, 0 <= i -> i <= j -> O i <= O j)
    by (intros; apply offsetAt_le; auto).
  unfold findNearestItem, bind at 1, readLastMeasuredIndex.
  unfold bind at 1. rewrite (lastMeasuredItemOffset_run props h Hwf).
  fold O.
  destruct (Z.geb_spec (O (lastMeasuredIndex (inst h))) offset_)
    as [Hge | Hlt].
  - destruct (binarySearch_spec props (lastMeasuredIndex (inst h)) 0 offset_
                h Hpos Hwf ltac:(lia) ltac:(lia))
      as (r & h' & Hrun & _ & Hres).
    exists r, h'. split; [exact Hrun |]. fold O in Hres.
    destruct Hres as [(Hr & Hle & Hnext) | (Hr & Hnext)].
    + split; [lia |]. split; [now right |]. intros _.
      destruct (Z.eq_dec r (lastMeasuredIndex (inst h))) as [Her | Hne].
      * rewrite Her in *. specialize (Hmono _ (lastMeasuredIndex (inst h) + 1)
                                        (proj1 HL)). lia.
      * apply Hnext. lia.
    + unfold O in Hnext at 1. rewrite offsetAt_0 in Hnext.
      split; [lia |]. split; [left; lia |]. intros _.
      replace r with 0 by lia. specialize (Hmonole 0 (0 + 1)).
      unfold O in Hmonole at 1. rewrite offsetAt_0 in Hmonole. lia.
  - unfold findNearestItemExponentialSearch, bind.
    destruct (exponentialProbe_spec props (lastMeasuredIndex (inst h)) 1
                offset_ h Hpos Hwf (proj1 HL) (lastMeasuredIndex (inst h))
                ltac:(lia))
      as (r1 & h1 & Hrun1 & Hext1 & Hstop & Hprev).
    rewrite Hrun1. fold O in Hstop, Hprev.
    pose proof (fun i => extends_offsetAt props h h1 i Hext1) as Hsame.
    destruct Hprev as [Hr1 | (q & Hr1 & _ & Hqin & Hbelow)].
    { exfalso. rewrite Hr1 in Hstop. lia. }
    set (prev := lastMeasuredIndex (inst h) + Z.pos q - 1) in *.
    assert (Hlow : 0 <= r1 / 2 <= prev).
    { split; [apply Z.div_pos; lia |].
      assert (r1 / 2 < lastMeasuredIndex (inst h) + Z.pos q)
        by (apply Z.div_lt_upper_bound; lia). lia. }
    destruct (binarySearch_spec props (Z.min r1 (itemCount props - 1))
                (r1 / 2) offset_ h1 Hpos (proj1 Hext1) ltac:(lia) ltac:(lia))
      as (r & h' & Hrun & _ & Hres).
    exists r, h'. split; [exact Hrun |].
    rewrite !Hsame in Hres. fold O in Hres.
    destruct Hres as [(Hr & Hle & Hnext) | (Hr & Hnext)].
    + split; [lia |]. split; [now right |]. intros Hlast.
      destruct (Z_lt_le_dec r (Z.min r1 (itemCount props - 1)))
        as [Hrlt | Hrge]; [now apply Hnext |].
      replace r with r1 in * by lia.
      destruct Hstop as [Hpast | Hat]; [lia |].
      specialize (Hmono r1 (r1 + 1)). lia.
    + exfalso. specialize (Hmonole (r1 / 2) prev). lia.
Qed.

(** X4: once something is measured and the watermark is within the list,
    [findNearestItem] completes normally for every offset, negative or beyond
    the end included: it returns an index in [0, itemCount - 1], the largest
    one whose offset does not exceed the given offset (index 0 when there is
    none, the last index when the offset is at or beyond the total size), and
    it measures no item beyond the last one. *)
Theorem findNearestItem_clamped props offset_ h :
  positiveSizes props -> wf (inst h) ->
  0 <= lastMeasuredIndex (inst h) < itemCount props ->
  exists r h',
    findNearestItem props offset_ h = (Normal r, h') /\
    0 <= r <= itemCount props - 1 /\
    (forall j, 0 <= j <= itemCount props - 1 ->
       offsetAt props (inst h) j <= offset_ -> j <= r) /\
    (offsetAt props (inst h) r <= offset_ \/ (offset_ < 0 /\ r = 0)) /\
    (offsetAt props (inst h) (itemCount props) <= offset_ ->
     r = itemCount props - 1) /\
    lastMeasuredIndex (inst h') <= itemCount props - 1.
Proof.
  intros Hpos Hwf HL.
  destruct (findNearestItem_clamped_run props offset_ h Hpos Hwf HL)
    as (r & h' & Hrun & Hr & Hle & Hnext).
  exists r, h'. split; [exact Hrun |]. split; [exact Hr |].
  split; [| split; [| split]].
  - intros j Hj Hjo. destruct (Z_le_gt_dec j r) as [|Hgt]; [assumption |].
    pose proof (offsetAt_le props (inst h) (r + 1) j Hwf Hpos). lia.
  - tauto.
  - intros Hend.
    destruct (Z.eq_dec r (itemCount props - 1)) as [|Hne]; [assumption |].
    specialize (Hnext ltac:(lia)).
    pose proof (offsetAt_le props (inst h) (r + 1) (itemCount props)
                  Hwf Hpos). lia.
  - pose proof (measuredUpTo_findNearestItem props offset_ h Hpos Hwf)
      as (_ & _ & Hb). rewrite Hrun in Hb. cbn [snd] in Hb. lia.
Qed.

Lemma findNearestItem_clamped_witness :
  positiveSizes uniform25 /\ wf (inst fiveMeasured) /\
  0 <= lastMeasuredIndex (inst fiveMeasured) < itemCount uniform25 /\
  exists r h',
    findNearestItem uniform25 99999 fiveMeasured = (Normal r, h') /\
    0 <= r <= itemCount uniform25 - 1 /\
    (forall j, 0 <= j <= itemCount uniform25 - 1 ->
       offsetAt uniform25 (inst fiveMeasured) j <= 99999 -> j <= r) /\
    (offsetAt uniform25 (inst fiveMeasured) r <= 99999
     \/ (99999 < 0 /\ r = 0)) /\
    (offsetAt uniform25 (inst fiveMeasured) (itemCount uniform25) <= 99999 ->
     r = itemCount uniform25 - 1) /\
    lastMeasuredIndex (inst h') <= itemCount uniform25 - 1.
Proof.
  split; [exact uniform25_positive |]. split; [exact fiveMeasured_wf |].
  split; [vm_compute; split; [discriminate | reflexivity] |].
  apply (findNearestItem_clamped uniform25 99999 fiveMeasured);
    [exact uniform25_positive | exact fiveMeasured_wf
    | vm_compute; split; [discriminate | reflexivity]].
Defined.

Lemma findNearestItem_measured_witness :
  positiveSizes uniform25 /\ wf (inst fiveMeasured) /\
  0 <= lastMeasuredIndex (inst fiveMeasured) /\
  0 <= 1010 < offsetAt uniform25 (inst fiveMeasured) (itemCount uniform25) /\
  exists r h' m h'',
    findNearestItem uniform25 1010 fiveMeasured = (Normal r, h') /\
    0 <= r < itemCount uniform25 /\
    getItemMetadata uniform25 r h' = (Normal (Some m), h'') /\
    offset m <= 1010 < offset m + size m /\
    (forall j, 0 <= j ->
       offsetAt uniform25 (inst fiveMeasured) j <= 1010
         < offsetAt uniform25 (inst fiveMeasured) j
           + sizeAt uniform25 (inst fiveMeasured) j ->
       j = r).
Proof.
  split; [exact uniform25_positive |]. split; [exact fiveMeasured_wf |].
  split; [vm_compute; discriminate |].
  split; [vm_compute; split; [discriminate | reflexivity] |].
  apply (findNearestItem_measured uniform25 1010 fiveMeasured);
    [exact uniform25_positive | exact fiveMeasured_wf
    | vm_compute; discriminate
    | vm_compute; split; [discriminate | reflexivity]].
Defined.

(** X6: a search for an offset at or below the offset of the item at the
    watermark (at or below 0 when at most one item is measured) reads the
    cache only: it leaves the state as it was and calls [itemSize] not once. *)
Theorem findNearestItem_within_measured_is_readonly props offset_ h :
  wf (inst h) ->
  offset_ <= offsetAt props (inst h) (lastMeasuredIndex (inst h)) ->
  snd (findNearestItem props offset_ h) = h.
Proof.
  intros Hwf Ho.
  unfold findNearestItem, bind at 1, readLastMeasuredIndex.
  unfold bind at 1. rewrite (lastMeasuredItemOffset_run props h Hwf).
  destruct (Z.geb_spec (offsetAt props (inst h) (lastMeasuredIndex (inst h)))
              offset_); [| lia].
  apply binarySearch_cached. lia.
Qed.

Lemma findNearestItem_within_measured_is_readonly_witness :
  wf (inst fiveMeasured) /\
  60 <= offsetAt uniform25 (inst fiveMeasured)
          (lastMeasuredIndex (inst fiveMeasured)) /\
  snd (findNearestItem uniform25 60 fiveMeasured) = fiveMeasured.
Proof.
  split; [exact fiveMeasured_wf |]. split; [vm_compute; discriminate |].
  apply (findNearestItem_within_measured_is_readonly uniform25 60 fiveMeasured);
    [exact fiveMeasured_wf | vm_compute; discriminate].
Defined.

(** X7: with nothing measured (watermark -1, no entry at -1), a list of zero
    or more items and an offset above 0, [findNearestItem] throws a
    [TypeError] and leaves the state as it was: the exponential search starts
    its probe at the watermark, index -1. *)
Theorem findNearestItem_nothing_measured_throws props offset_ h :
  lastMeasuredIndex (inst h) = -1 ->
  itemMetadataMap (inst h) !! (-1) = None ->
  0 <= itemCount props -> 0 < offset_ ->
  findNearestItem props offset_ h = (Throw TypeError, h) /\
  getStartIndexForOffset props offset_ h = (Throw TypeError, h).
Proof.
  intros HL Hnone Hcount Ho. unfold getStartIndexForOffset.
  split; now apply findNearestItem_unmeasured_throws.
Qed.

Lemma findNearestItem_nothing_measured_throws_witness :
  lastMeasuredIndex (inst (initHeap None)) = -1 /\
  itemMetadataMap (inst (initHeap None)) !! (-1) = None /\
  0 <= itemCount uniform25 /\ 0 < 300 /\
  findNearestItem uniform25 300 (initHeap None)
    = (Throw TypeError, initHeap None) /\
  getStartIndexForOffset uniform25 300 (initHeap None)
    = (Throw TypeError, initHeap None).
Proof.
  split; [reflexivity |]. split; [reflexivity |].
  split; [vm_compute; discriminate |]. split; [lia |].
  apply (findNearestItem_nothing_measured_throws uniform25 300 (initHeap None));
    [reflexivity | reflexivity | vm_compute; discriminate | lia].
Defined.

(** ** The window calculator: how far it measures *)

Lemma stopIndexLoop_watermark props maxOffset stopIndex offset_ h :
  positiveSizes props -> wf (inst h) ->
  stopIndex <= lastMeasuredIndex (inst h) ->
  forall r h',
    stopIndexLoop props maxOffset stopIndex offset_ h = (Normal r, h') ->
    stopIndex <= r /\
    lastMeasuredIndex (inst h') = Z.max (lastMeasuredIndex (inst h)) r.
Proof.
  funelim (stopIndexLoop props maxOffset stopIndex offset_ h);
    intros Hpos Hwf Hstop r h0 Hrun;
    try (injection Hrun as <- <-; lia); try discriminate.
  match goal with
  | Hget : getItemMetadata _ _ _ = _ |- _ =>
      pose proof (getItemMetadata_watermark props (stopIndex + 1) h Hwf) as HL;
      pose proof (continues_getItemMetadata props (stopIndex + 1) Hpos h Hwf)
        as Hc;
      rewrite Hget in HL, Hc; cbn [snd] in HL, Hc
  end.
  destruct (H Hpos (proj1 Hc) ltac:(lia) r h0 Hrun) as [Hr HL']. lia.
Qed.

Lemma getStopIndexForStartIndex_run props startIndex scrollOffset h :
  positiveSizes props -> wf (inst h) -> 0 <= startIndex ->
  exists r h',
    getStopIndexForStartIndex props startIndex scrollOffset h
      = (Normal r, h') /\
    extends props h h' /\
    startIndex <= r <= Z.max startIndex (itemCount props - 1) /\
    lastMeasuredIndex (inst h') = Z.max (lastMeasuredIndex (inst h)) r /\
    (forall k, startIndex <= k < r ->
       offsetAt props (inst h) (k + 1)
         < scrollOffset + viewportSize props) /\
    (r < itemCount props - 1 ->
       scrollOffset + viewportSize props <= offsetAt props (inst h) (r + 1)).
Proof.
  intros Hpos Hwf Hstart.
  destruct (getItemMetadata_spec props startIndex h Hwf Hpos Hstart)
    as (h1 & Hrun1 & Hext1 & HL1).
  pose proof (fun i => extends_offsetAt props h h1 i Hext1) as Hsame.
  destruct (stopIndexLoop_spec props (scrollOffset + viewportSize props)
              startIndex
              (offset (metadataAt props (inst h) startIndex)
               + size (metadataAt props (inst h) startIndex))
              h1 Hpos (proj1 Hext1))
    as (r & h2 & Hrun2 & Hext2 & Hr & Hmax & Hbelow & Hat); [lia | |].
  { cbn [metadataAt offset size]. rewrite Hsame.
    now rewrite offsetAt_succ by lia. }
  assert (Hmeasured : startIndex <= lastMeasuredIndex (inst h1)) by lia.
  destruct (stopIndexLoop_watermark props _ _ _ h1 Hpos (proj1 Hext1)
              Hmeasured r h2 Hrun2) as [_ HL2].
  exists r, h2. split.
  { unfold getStopIndexForStartIndex, bind. rewrite Hrun1. exact Hrun2. }
  split; [eapply extends_trans; eauto |]. split; [lia |]. split; [lia |].
  split.
  - intros k Hk. rewrite <- Hsame. now apply Hbelow.
  - intros Hlt. rewrite <- Hsame. now apply Hat.
Qed.

(** X8: from a well-formed state and a start index of 0 or more,
    [getStopIndexForStartIndex] completes normally, returns an index at or
    after the start index, and measures exactly up to the index it returns:
    the watermark afterwards is the larger of the old watermark and the
    result, and [itemSize] has been called once for each index in between. *)
Theorem getStopIndexForStartIndex_measures_to_result
  props startIndex scrollOffset h :
  positiveSizes props -> wf (inst h) -> 0 <= startIndex ->
  exists r h',
    getStopIndexForStartIndex props startIndex scrollOffset h
      = (Normal r, h') /\
    startIndex <= r /\
    lastMeasuredIndex (inst h') = Z.max (lastMeasuredIndex (inst h)) r /\
    itemSizeCalls h' =
      loggedRange (lastMeasuredIndex (inst h) + 1)
                  (Z.to_nat (Z.max (lastMeasuredIndex (inst h)) r
                             - lastMeasuredIndex (inst h)))
      ++ itemSizeCalls h.
Proof.
  intros Hpos Hwf Hstart.
  destruct (getStopIndexForStartIndex_run props startIndex scrollOffset h
              Hpos Hwf Hstart) as (r & h' & Hrun & _ & Hr & HL & _).
  pose proof (measuredUpTo_getStopIndexForStartIndex props startIndex
                scrollOffset h Hpos Hwf) as (_ & Hlog & _).
  rewrite Hrun in Hlog. cbn [snd] in Hlog. unfold measuredOnce in Hlog.
  exists r, h'. split; [exact Hrun |]. split; [lia |]. split; [exact HL |].
  now rewrite <- HL.
Qed.

Lemma getStopIndexForStartIndex_measures_to_result_witness :
  positiveSizes uniform25 /\ wf (inst fiveMeasured) /\ 0 <= 2 /\
  exists r h',
    getStopIndexForStartIndex uniform25 2 160 fiveMeasured = (Normal r, h') /\
    2 <= r /\
    lastMeasuredIndex (inst h')
      = Z.max (lastMeasuredIndex (inst fiveMeasured)) r /\
    itemSizeCalls h' =
      loggedRange (lastMeasuredIndex (inst fiveMeasured) + 1)
                  (Z.to_nat (Z.max (lastMeasuredIndex (inst fiveMeasured)) r
                             - lastMeasuredIndex (inst fiveMeasured)))
      ++ itemSizeCalls fiveMeasured.
Proof.
  split; [exact uniform25_positive |]. split; [exact fiveMeasured_wf |].
  split; [lia |].
  apply (getStopIndexForStartIndex_measures_to_result
           uniform25 2 160 fiveMeasured);
    [exact uniform25_positive | exact fiveMeasured_wf | lia].
Defined.

(** X9: the window found for a scroll offset covers the viewport.  From a
    well-formed state with something measured, for a scroll offset within the
    exact total size and a viewport of positive size, the start index found
    by [getStartIndexForOffset] and the stop index found from it satisfy
    [start <= stop <= itemCount - 1]; the start item begins at or before the
    scroll offset; the stop item ends at or beyond the end of the viewport
    unless it is the last item; and every item of the window overlaps the
    viewport. *)
Theorem rendered_window_covers_viewport props scrollOffset h :
  positiveSizes props -> wf (inst h) ->
  0 <= lastMeasuredIndex (inst h) ->
  0 <= scrollOffset < offsetAt props (inst h) (itemCount props) ->
  0 < viewportSize props ->
  let itemStart k := offset (metadataAt props (inst h) k) in
  let itemEnd k := offset (metadataAt props (inst h) k)
                   + size (metadataAt props (inst h) k) in
  exists start stop h',
    (startIndex <- getStartIndexForOffset props scrollOffset ;;
     stopIndex <- getStopIndexForStartIndex props startIndex scrollOffset ;;
     ret (startIndex, stopIndex)) h = (Normal (start, stop), h') /\
    0 <= start <= stop /\ stop <= itemCount props - 1 /\
    itemStart start <= scrollOffset < itemEnd start /\
    (scrollOffset + viewportSize props <= itemEnd stop
     \/ stop = itemCount props - 1) /\
    (forall k, start <= k <= stop ->
       itemStart k < scrollOffset + viewportSize props /\
       scrollOffset < itemEnd k).
Proof.
  intros Hpos Hwf HL Ho Hview itemStart itemEnd.
  destruct (findNearestItem_measured_run props scrollOffset h Hpos Hwf HL Ho)
    as (start & h1 & Hrun1 & Hext1 & Hstart & Hin).
  destruct (getStopIndexForStartIndex_run props start scrollOffset h1
              Hpos (proj1 Hext1) ltac:(lia))
    as (stop & h2 & Hrun2 & _ & Hstop & _ & Hbelow & Hat).
  pose proof (fun i => extends_offsetAt props h h1 i Hext1) as Hsame.
  rewrite Hsame in Hat. setoid_rewrite Hsame in Hbelow.
  assert (Hend : forall k, 0 <= k ->
            itemEnd k = offsetAt props (inst h) (k + 1)).
  { intros k Hk. unfold itemEnd. cbn [metadataAt offset size].
    now rewrite offsetAt_succ. }
  exists start, stop, h2. split.
  { unfold bind, getStartIndexForOffset. rewrite Hrun1, Hrun2. reflexivity. }
  split; [lia |]. split; [lia |]. split; [exact Hin |]. split.
  - destruct (Z_lt_le_dec stop (itemCount props - 1)) as [Hlt | Hge];
      [left | right; lia].
    rewrite Hend by lia. now apply Hat.
  - intros k Hk. split.
    + unfold itemStart. cbn [metadataAt offset].
      destruct (Z.eq_dec k start) as [-> | Hne]; [lia |].
      replace k with (k - 1 + 1) by lia. apply Hbelow. lia.
    + rewrite Hend by lia.
      pose proof (offsetAt_le props (inst h) (start + 1) (k + 1) Hwf Hpos).
      rewrite <- offsetAt_succ in Hin by lia. lia.
Qed.

Lemma rendered_window_covers_viewport_witness :
  positiveSizes uniform25 /\ wf (inst fiveMeasured) /\
  0 <= lastMeasuredIndex (inst fiveMeasured) /\
  0 <= 310 < offsetAt uniform25 (inst fiveMeasured) (itemCount uniform25) /\
  0 < viewportSize uniform25 /\
  let itemStart k := offset (metadataAt uniform25 (inst fiveMeasured) k) in
  let itemEnd k := offset (metadataAt uniform25 (inst fiveMeasured) k)
                   + size (metadataAt uniform25 (inst fiveMeasured) k) in
  exists start stop h',
    (startIndex <- getStartIndexForOffset uniform25 310 ;;
     stopIndex <- getStopIndexForStartIndex uniform25 startIndex 310 ;;
     ret (startIndex, stopIndex)) fiveMeasured = (Normal (start, stop), h') /\
    0 <= start <= stop /\ stop <= itemCount uniform25 - 1 /\
    itemStart start <= 310 < itemEnd start /\
    (310 + viewportSize uniform25 <= itemEnd stop
     \/ stop = itemCount uniform25 - 1) /\
    (forall k, start <= k <= stop ->
       itemStart k < 310 + viewportSize uniform25 /\ 310 < itemEnd k).
Proof.
  split; [exact uniform25_positive |]. split; [exact fiveMeasured_wf |].
  split; [vm_compute; discriminate |].
  split; [vm_compute; split; [discriminate | reflexivity] |].
  split; [vm_compute; reflexivity |].
  apply (rendered_window_covers_viewport uniform25 310 fiveMeasured);
    [exact uniform25_positive | exact fiveMeasured_wf
    | vm_compute; discriminate
    | vm_compute; split; [discriminate | reflexivity]
    | vm_compute; reflexivity].
Defined.

(** ** Invalidation and what follows it *)

(** X10: invalidation, then measurement with the [itemSize] then in force.
    In a well-formed state, [resetAfterIndex k] with [0 <= k] at most one
    past the watermark leaves a well-formed state with watermark [k - 1];
    [getEstimatedTotalSize] at once counts every item from [k] on at the
    estimate; and the next [getItemMetadata] at an index from [k] on
    recomputes the items from [k] to that index from the current [itemSize],
    whatever was cached for them, calling it once per item, on top of the
    offsets kept below [k]. *)
Theorem resetAfterIndex_then_measure props props' k index h :
  wf (inst h) -> 0 <= k <= lastMeasuredIndex (inst h) + 1 -> k <= index ->
  let h0 := snd (resetAfterIndex k h) in
  wf (inst h0) /\
  lastMeasuredIndex (inst h0) = k - 1 /\
  getEstimatedTotalSize props h0
    = (Normal (storedPrefix (inst h) k
               + (itemCount props - k) * estimatedItemSize (inst h)), h0) /\
  exists h',
    getItemMetadata props' index h0
      = (Normal (Some (mkItemMetadata
                         (storedPrefix (inst h) k
                          + (sumZ (itemSize props') index
                             - sumZ (itemSize props') k))
                         (itemSize props' index))), h') /\
    lastMeasuredIndex (inst h') = index /\
    Z.of_nat (length (itemSizeCalls h'))
      = Z.of_nat (length (itemSizeCalls h)) + (index - k + 1) /\
    (forall j, j < k ->
       itemMetadataMap (inst h') !! j = itemMetadataMap (inst h) !! j) /\
    (forall j, k <= j <= index ->
       itemMetadataMap (inst h') !! j
         = Some (mkItemMetadata
                   (storedPrefix (inst h) k
                    + (sumZ (itemSize props') j - sumZ (itemSize props') k))
                   (itemSize props' j))).
Proof.
  intros Hwf Hk Hindex h0.
  pose proof (resetAfterIndex_wf k h Hwf (proj1 Hk)) as Hwf0. fold h0 in Hwf0.
  assert (HL0 : lastMeasuredIndex (inst h0) = k - 1).
  { subst h0. cbn. lia. }
  assert (Hmap0 : itemMetadataMap (inst h0) = itemMetadataMap (inst h))
    by reflexivity.
  assert (Hest0 : estimatedItemSize (inst h0) = estimatedItemSize (inst h))
    by reflexivity.
  assert (Hcalls0 : itemSizeCalls h0 = itemSizeCalls h) by reflexivity.
  assert (Hpre : forall i, storedPrefix (inst h0) i = storedPrefix (inst h) i).
  { intros i. apply sumZ_ext. intros q _. unfold storedSize.
    now rewrite Hmap0. }
  assert (Hoff : forall j, k <= j ->
    offsetAt props' (inst h0) j
    = storedPrefix (inst h) k
      + (sumZ (itemSize props') j - sumZ (itemSize props') k)).
  { intros j Hj. unfold offsetAt. rewrite <- Hpre. unfold storedPrefix.
    apply sumZ_splice; [lia | |]; intros q Hq; unfold sizeAt; rewrite HL0;
      destruct (Z.leb_spec q (k - 1)); (reflexivity || lia). }
  split; [exact Hwf0 |]. split; [exact HL0 |]. split.
  - destruct (Z.eq_dec k 0) as [-> | Hk0].
    + rewrite getEstimatedTotalSize_unmeasured by lia. rewrite HL0, Hest0.
      unfold storedPrefix. rewrite sumZ_0.
      replace (itemCount props - (0 - 1) - 1) with (itemCount props - 0)
        by lia.
      reflexivity.
    + destruct (proj2 Hwf0 (k - 1) ltac:(lia)) as (m & Hm & _).
      rewrite <- HL0 in Hm.
      rewrite (getEstimatedTotalSize_measured props h0 m) by (auto; lia).
      rewrite (wf_end_prefix (inst h0) Hwf0 m) by (auto; lia).
      rewrite HL0, Hest0, Hpre.
      replace (k - 1 + 1) with k by lia.
      replace (itemCount props - (k - 1) - 1) with (itemCount props - k)
        by lia.
      reflexivity.
  - destruct (getItemMetadata_measuring props' index h0 Hwf0 ltac:(lia))
      as (h' & Hrun & HL' & _ & Hlog & Hin & Hout).
    exists h'. split.
    { rewrite Hrun. unfold metadataAt, sizeAt. rewrite Hoff by lia.
      destruct (Z.leb_spec index (lastMeasuredIndex (inst h0)));
        [lia | reflexivity]. }
    split; [exact HL' |]. split; [| split].
    + rewrite Hlog, length_app, loggedRange_length, Hcalls0. lia.
    + intros j Hj. rewrite Hout by lia. now rewrite Hmap0.
    + intros j Hj. rewrite Hin by lia. now rewrite Hoff by lia.
Qed.

Lemma resetAfterIndex_then_measure_witness :
  let props' := mkProps vertical 100 50 100 (fun _ => 75) in
  wf (inst fiveMeasured) /\
  0 <= 3 <= lastMeasuredIndex (inst fiveMeasured) + 1 /\ 3 <= 4 /\
  let h0 := snd (resetAfterIndex 3 fiveMeasured) in
  wf (inst h0) /\
  lastMeasuredIndex (inst h0) = 3 - 1 /\
  getEstimatedTotalSize uniform25 h0
    = (Normal (storedPrefix (inst fiveMeasured) 3
               + (itemCount uniform25 - 3)
                 * estimatedItemSize (inst fiveMeasured)), h0) /\
  exists h',
    getItemMetadata props' 4 h0
      = (Normal (Some (mkItemMetadata
                         (storedPrefix (inst fiveMeasured) 3
                          + (sumZ (itemSize props') 4
                             - sumZ (itemSize props') 3))
                         (itemSize props' 4))), h') /\
    lastMeasuredIndex (inst h') = 4 /\
    Z.of_nat (length (itemSizeCalls h'))
      = Z.of_nat (length (itemSizeCalls fiveMeasured)) + (4 - 3 + 1) /\
    (forall j, j < 3 ->
       itemMetadataMap (inst h') !! j
         = itemMetadataMap (inst fiveMeasured) !! j) /\
    (forall j, 3 <= j <= 4 ->
       itemMetadataMap (inst h') !! j
         = Some (mkItemMetadata
                   (storedPrefix (inst fiveMeasured) 3
                    + (sumZ (itemSize props') j - sumZ (itemSize props') 3))
                   (itemSize props' j))).
Proof.
  intros props'. split; [exact fiveMeasured_wf |].
  split; [vm_compute; split; discriminate |]. split; [lia |].
  apply (resetAfterIndex_then_measure uniform25 props' 3 4 fiveMeasured);
    [exact fiveMeasured_wf | vm_compute; split; discriminate | lia].
Defined.

(** X11: in a well-formed state the estimated total size is the sum of the
    stored sizes of the measured items plus the estimate for each unmeasured
    one; once every item is measured it is the exact total size, whatever the
    estimated item size. *)
Theorem getEstimatedTotalSize_measured_part_is_exact props h :
  wf (inst h) ->
  getEstimatedTotalSize props h
    = (Normal (storedPrefix (inst h) (lastMeasuredIndex (inst h) + 1)
               + (itemCount props - lastMeasuredIndex (inst h) - 1)
                 * estimatedItemSize (inst h)), h) /\
  (lastMeasuredIndex (inst h) = itemCount props - 1 ->
   getEstimatedTotalSize props h
     = (Normal (offsetAt props (inst h) (itemCount props)), h)).
Proof.
  intros Hwf.
  assert (Hrun : getEstimatedTotalSize props h
    = (Normal (storedPrefix (inst h) (lastMeasuredIndex (inst h) + 1)
               + (itemCount props - lastMeasuredIndex (inst h) - 1)
                 * estimatedItemSize (inst h)), h)).
  { destruct (Z_lt_le_dec (lastMeasuredIndex (inst h)) 0) as [Hneg | Hpos].
    - rewrite getEstimatedTotalSize_unmeasured by lia.
      unfold storedPrefix. rewrite sumZ_neg by (destruct Hwf; lia).
      reflexivity.
    - destruct (proj2 Hwf (lastMeasuredIndex (inst h)) ltac:(lia))
        as (m & Hm & _).
      rewrite (getEstimatedTotalSize_measured props h m) by auto.
      now rewrite (wf_end_prefix (inst h) Hwf m) by auto. }
  split; [exact Hrun |]. intros Hall. rewrite Hrun.
  rewrite offsetAt_stored by lia. do 2 f_equal.
  replace (lastMeasuredIndex (inst h) + 1) with (itemCount props) by lia.
  lia.
Qed.

Lemma getEstimatedTotalSize_measured_part_is_exact_witness :
  let five := mkProps vertical 100 50 5 (fun _ => 25) in
  wf (inst fiveMeasured) /\
  getEstimatedTotalSize five fiveMeasured
    = (Normal (storedPrefix (inst fiveMeasured)
                 (lastMeasuredIndex (inst fiveMeasured) + 1)
               + (itemCount five - lastMeasuredIndex (inst fiveMeasured) - 1)
                 * estimatedItemSize (inst fiveMeasured)), fiveMeasured) /\
  lastMeasuredIndex (inst fiveMeasured) = itemCount five - 1 /\
  getEstimatedTotalSize five fiveMeasured
    = (Normal (offsetAt five (inst fiveMeasured) (itemCount five)),
       fiveMeasured).
Proof.
  intros five. split; [exact fiveMeasured_wf |].
  split;
    [apply (proj1 (getEstimatedTotalSize_measured_part_is_exact
                     five fiveMeasured fiveMeasured_wf)) |].
  split; [vm_compute; reflexivity |].
  apply (proj2 (getEstimatedTotalSize_measured_part_is_exact
                  five fiveMeasured fiveMeasured_wf)).
  vm_compute; reflexivity.
Defined.

(** X12: what [getItemMetadata] returns for an item does not depend on what
    was called before.  From a well-formed state and with one [itemSize],
    after any call other than an invalidation [getItemMetadata] returns for
    every index of 0 or more the metadata it would have returned before the
    call. *)
Theorem getItemMetadata_result_is_stable props c j h :
  positiveSizes props -> wf (inst h) -> measures c -> 0 <= j ->
  fst (getItemMetadata props j (perform props c h))
    = fst (getItemMetadata props j h) /\
  fst (getItemMetadata props j h)
    = Normal (Some (mkItemMetadata (offsetAt props (inst h) j)
                                   (sizeAt props (inst h) j))).
Proof.
  intros Hpos Hwf Hc Hj.
  pose proof (perform_measuring props c h Hpos Hc Hwf) as Hext.
  destruct (getItemMetadata_spec props j h Hwf Hpos Hj) as (h1 & Hrun1 & _).
  destruct (getItemMetadata_spec props j (perform props c h)
              (proj1 Hext) Hpos Hj) as (h2 & Hrun2 & _).
  rewrite Hrun1, Hrun2. cbn [fst].
  rewrite (extends_metadataAt props h (perform props c h)) by auto.
  split; reflexivity.
Qed.

Lemma getItemMetadata_result_is_stable_witness :
  positiveSizes uniform25 /\ wf (inst fiveMeasured) /\
  measures (FindStopIndex 3 500) /\ 0 <= 40 /\
  fst (getItemMetadata uniform25 40
         (perform uniform25 (FindStopIndex 3 500) fiveMeasured))
    = fst (getItemMetadata uniform25 40 fiveMeasured) /\
  fst (getItemMetadata uniform25 40 fiveMeasured)
    = Normal (Some (mkItemMetadata
                      (offsetAt uniform25 (inst fiveMeasured) 40)
                      (sizeAt uniform25 (inst fiveMeasured) 40))).
Proof.
  split; [exact uniform25_positive |]. split; [exact fiveMeasured_wf |].
  split; [exact I |]. split; [lia |].
  apply (getItemMetadata_result_is_stable uniform25 (FindStopIndex 3 500) 40
           fiveMeasured);
    [exact uniform25_positive | exact fiveMeasured_wf | exact I | lia].
Defined.

(** ** The alignment planner: what the returned offset achieves *)

Lemma midpoint_between a b : a <= b -> a <= (a + b + 1) / 2 <= b.
Proof.
  intros Hab. split.
  - apply Z.div_le_lower_bound; lia.
  - assert ((a + b + 1) / 2 < b + 1) by (apply Z.div_lt_upper_bound; lia).
    lia.
Qed.

(** The estimated total size reaches at least to the end of every measured
    item, when the estimate is not negative and the watermark is within the
    list. *)
Lemma estimatedTotal_covers_measured props h i total :
  positiveSizes props -> wf (inst h) ->
  0 <= i <= lastMeasuredIndex (inst h) ->
  lastMeasuredIndex (inst h) < itemCount props ->
  0 <= estimatedItemSize (inst h) ->
  getEstimatedTotalSize props h = (Normal total, h) ->
  offsetAt props (inst h) i + sizeAt props (inst h) i <= total.
Proof.
  intros Hpos Hwf Hi HL He Hrun.
  destruct (proj2 Hwf (lastMeasuredIndex (inst h)) ltac:(lia))
    as (m & Hm & _).
  rewrite (getEstimatedTotalSize_measured props h m) in Hrun by (auto; lia).
  injection Hrun as <-.
  rewrite (wf_end_prefix (inst h) Hwf m) by (auto; lia).
  rewrite <- (offsetAt_stored props) by lia.
  rewrite <- offsetAt_succ by lia.
  pose proof (offsetAt_le props (inst h) (i + 1)
                (lastMeasuredIndex (inst h) + 1) Hwf Hpos).
  assert (0 <= (itemCount props - lastMeasuredIndex (inst h) - 1)
               * estimatedItemSize (inst h))
    by (apply Z.mul_nonneg_nonneg; lia).
  lia.
Qed.

(** X13: the offset returned for an item makes it fully visible.  For an
    item of the list that is no larger than the viewport, in a list whose
    estimated total size is at least the viewport size (estimate not
    negative, watermark within the list), [minOffset <= maxOffset], and for
    every alignment and every current scroll offset the returned offset [r]
    lies between them: it is not negative, the item starts at or after [r]
    and ends at or before [r + viewportSize], and [r + viewportSize] does not
    pass the estimated total size. *)
Theorem getOffsetForIndexAndAlignment_reveals_item
  props index align scrollOffset h :
  positiveSizes props -> wf (inst h) ->
  0 <= index < itemCount props ->
  lastMeasuredIndex (inst h) < itemCount props ->
  0 <= estimatedItemSize (inst h) ->
  exists m total h1,
    getItemMetadata props index h = (Normal (Some m), h1) /\
    getEstimatedTotalSize props h1 = (Normal total, h1) /\
    (size m <= viewportSize props -> viewportSize props <= total ->
     exists r,
       getOffsetForIndexAndAlignment props index align scrollOffset h
         = (Normal r, h1) /\
       Z.max 0 (offset m - viewportSize props + size m) <= r
         <= Z.min (total - viewportSize props) (offset m) /\
       0 <= r /\
       r <= offset m /\
       offset m + size m <= r + viewportSize props /\
       r + viewportSize props <= total).
Proof.
  intros Hpos Hwf Hi HL He.
  destruct (alignment_prelude props index h Hpos Hwf (proj1 Hi))
    as (total & h1 & Hrun & Hext & HL1 & Ht).
  destruct (getItemMetadata_spec props index h Hwf Hpos (proj1 Hi))
    as (h1' & Hrun' & _ & HLmax).
  rewrite Hrun in Hrun'. injection Hrun' as <-.
  set (m := metadataAt props (inst h) index) in *.
  exists m, total, h1. split; [exact Hrun |]. split; [exact Ht |].
  intros Hfit Hview.
  assert (Hend : offset m + size m <= total).
  { pose proof (estimatedTotal_covers_measured props h1 index total Hpos
                  (proj1 Hext)) as Hc.
    pose proof (extends_metadataAt props h h1 index Hext (proj1 Hi)) as Hmeta.
    unfold m. rewrite <- Hmeta. cbn [metadataAt offset size].
    apply Hc; auto; try lia.
    destruct Hext as (_ & _ & He1 & _). lia. }
  assert (Hoff0 : 0 <= offset m).
  { unfold m. cbn [metadataAt offset].
    rewrite <- (offsetAt_0 props (inst h)) at 1. apply offsetAt_le; auto; lia. }
  set (maxOffset := Z.min (total - viewportSize props) (offset m)).
  set (minOffset := Z.max 0 (offset m - viewportSize props + size m)).
  assert (Hmm : minOffset <= maxOffset) by (unfold minOffset, maxOffset; lia).
  assert (Hres : exists r,
    getOffsetForIndexAndAlignment props index align scrollOffset h
      = (Normal r, h1) /\ minOffset <= r <= maxOffset).
  { unfold getOffsetForIndexAndAlignment, bind. rewrite Hrun.
    cbn [defined ret]. rewrite Ht. fold maxOffset minOffset.
    destruct align.
    1, 5: destruct (Z.geb_spec scrollOffset minOffset),
                   (Z.leb_spec scrollOffset maxOffset); cbn [andb];
          [eexists; split; [reflexivity | lia] | | |];
          destruct (scrollOffset - minOffset <? maxOffset - scrollOffset);
          eexists; (split; [reflexivity | lia]).
    - eexists; split; [reflexivity | lia].
    - eexists; split; [reflexivity |]. rewrite Math_round_midpoint.
      now apply midpoint_between.
    - eexists; split; [reflexivity | lia]. }
  destruct Hres as (r & Hr & Hin). exists r. split; [exact Hr |].
  unfold minOffset, maxOffset in Hin. lia.
Qed.

Lemma getOffsetForIndexAndAlignment_reveals_item_witness :
  positiveSizes uniform25 /\ wf (inst fiveMeasured) /\
  0 <= 30 < itemCount uniform25 /\
  lastMeasuredIndex (inst fiveMeasured) < itemCount uniform25 /\
  0 <= estimatedItemSize (inst fiveMeasured) /\
  exists m total h1,
    getItemMetadata uniform25 30 fiveMeasured = (Normal (Some m), h1) /\
    getEstimatedTotalSize uniform25 h1 = (Normal total, h1) /\
    (size m <= viewportSize uniform25 -> viewportSize uniform25 <= total ->
     exists r,
       getOffsetForIndexAndAlignment uniform25 30 AlignCenter 0 fiveMeasured
         = (Normal r, h1) /\
       Z.max 0 (offset m - viewportSize uniform25 + size m) <= r
         <= Z.min (total - viewportSize uniform25) (offset m) /\
       0 <= r /\
       r <= offset m /\
       offset m + size m <= r + viewportSize uniform25 /\
       r + viewportSize uniform25 <= total).
Proof.
  split; [exact uniform25_positive |]. split; [exact fiveMeasured_wf |].
  split; [vm_compute; split; [discriminate | reflexivity] |].
  split; [vm_compute; reflexivity |]. split; [vm_compute; discriminate |].
  apply (getOffsetForIndexAndAlignment_reveals_item
           uniform25 30 AlignCenter 0 fiveMeasured);
    [exact uniform25_positive | exact fiveMeasured_wf
    | vm_compute; split; [discriminate | reflexivity]
    | vm_compute; reflexivity | vm_compute; discriminate].
Defined.

Lemma alignment_result_between props index align scrollOffset h m total h1 :
  getItemMetadata props index h = (Normal (Some m), h1) ->
  getEstimatedTotalSize props h1 = (Normal total, h1) ->
  Z.max 0 (offset m - viewportSize props + size m)
    <= Z.min (total - viewportSize props) (offset m) ->
  exists r,
    getOffsetForIndexAndAlignment props index align scrollOffset h
      = (Normal r, h1) /\
    Z.max 0 (offset m - viewportSize props + size m) <= r
      <= Z.min (total - viewportSize props) (offset m).
Proof.
  intros Hrun Ht.
  set (maxOffset := Z.min (total - viewportSize props) (offset m)).
  set (minOffset := Z.max 0 (offset m - viewportSize props + size m)).
  intros Hmm.
  unfold getOffsetForIndexAndAlignment, bind. rewrite Hrun.
  cbn [defined ret]. rewrite Ht. fold maxOffset minOffset.
  destruct align.
  1, 5: destruct (Z.geb_spec scrollOffset minOffset),
                 (Z.leb_spec scrollOffset maxOffset); cbn [andb];
        [eexists; split; [reflexivity | lia] | | |];
        destruct (scrollOffset - minOffset <? maxOffset - scrollOffset);
        eexists; (split; [reflexivity | lia]).
  - eexists; split; [reflexivity | lia].
  - eexists; split; [reflexivity |]. rewrite Math_round_midpoint.
    now apply midpoint_between.
  - eexists; split; [reflexivity | lia].
Qed.

(** X14: scrolling to an item settles.  Whenever [minOffset <= maxOffset]
    for the item, the offset returned for it under any alignment, taken as the
    current scroll offset of a second request with alignment ['auto'], is
    returned unchanged, and that second request changes nothing in the
    state. *)
Theorem auto_alignment_keeps_aligned_offset props index align scrollOffset h :
  positiveSizes props -> wf (inst h) -> 0 <= index ->
  exists m total h1,
    getItemMetadata props index h = (Normal (Some m), h1) /\
    getEstimatedTotalSize props h1 = (Normal total, h1) /\
    (Z.max 0 (offset m - viewportSize props + size m)
       <= Z.min (total - viewportSize props) (offset m) ->
     exists r,
       getOffsetForIndexAndAlignment props index align scrollOffset h
         = (Normal r, h1) /\
       getOffsetForIndexAndAlignment props index AlignAuto r h1
         = (Normal r, h1)).
Proof.
  intros Hpos Hwf Hi.
  destruct (alignment_prelude props index h Hpos Hwf Hi)
    as (total & h1 & Hrun & Hext & HL1 & Ht).
  exists (metadataAt props (inst h) index), total, h1.
  split; [exact Hrun |]. split; [exact Ht |]. intros Hmm.
  destruct (alignment_result_between props index align scrollOffset h _ _ _
              Hrun Ht Hmm) as (r & Hr & Hin).
  exists r. split; [exact Hr |].
  assert (Hrun2 : getItemMetadata props index h1
                  = (Normal (Some (metadataAt props (inst h) index)), h1)).
  { rewrite getItemMetadata_cached by lia.
    rewrite (wf_lookup props) by (try apply Hext; lia).
    now rewrite (extends_metadataAt props h h1) by auto. }
  unfold getOffsetForIndexAndAlignment, bind. rewrite Hrun2.
  cbn [defined ret]. rewrite Ht.
  destruct (Z.geb_spec r
              (Z.max 0 (offset (metadataAt props (inst h) index)
                        - viewportSize props
                        + size (metadataAt props (inst h) index))));
    [| lia].
  destruct (Z.leb_spec r
              (Z.min (total - viewportSize props)
                     (offset (metadataAt props (inst h) index))));
    [reflexivity | lia].
Qed.

Lemma auto_alignment_keeps_aligned_offset_witness :
  positiveSizes uniform25 /\ wf (inst fiveMeasured) /\ 0 <= 30 /\
  exists m total h1,
    getItemMetadata uniform25 30 fiveMeasured = (Normal (Some m), h1) /\
    getEstimatedTotalSize uniform25 h1 = (Normal total, h1) /\
    (Z.max 0 (offset m - viewportSize uniform25 + size m)
       <= Z.min (total - viewportSize uniform25) (offset m) ->
     exists r,
       getOffsetForIndexAndAlignment uniform25 30 AlignEnd 0 fiveMeasured
         = (Normal r, h1) /\
       getOffsetForIndexAndAlignment uniform25 30 AlignAuto r h1
         = (Normal r, h1)).
Proof.
  split; [exact uniform25_positive |]. split; [exact fiveMeasured_wf |].
  split; [lia |].
  apply (auto_alignment_keeps_aligned_offset
           uniform25 30 AlignEnd 0 fiveMeasured);
    [exact uniform25_positive | exact fiveMeasured_wf | lia].
Defined.

(** When the item is larger than the viewport the request does not settle:
    for the single item of 200 in a viewport of 100, ['auto'] sends scroll
    offset 0 to 100 and scroll offset 100 back to 0. *)
Example auto_alignment_oscillates_on_tall_item :
  fst (getOffsetForIndexAndAlignment tallItem 0 AlignAuto 0 (initHeap None))
    = Normal 100 /\
  fst (getOffsetForIndexAndAlignment tallItem 0 AlignAuto 100 (initHeap None))
    = Normal 0.
Proof. vm_compute. split; reflexivity. Qed.

(** ** Offsets and sizes as the rendering layer reads them *)

(** X15: items do not overlap.  From a well-formed state, for [0 <= i < j],
    reading the offset of item [i], then its size, then the offset of item
    [j] completes normally: the size is the one just measured or cached and
    is positive, the offset of [i] is not negative (0 for item 0), and item
    [j] starts at or after the end of item [i]. *)
Theorem getItemOffset_getItemSize_ordered props i j h :
  positiveSizes props -> wf (inst h) -> 0 <= i < j ->
  exists oi si oj h',
    (offset_i <- getItemOffset props i ;;
     size_i <- getItemSize props i ;;
     offset_j <- getItemOffset props j ;;
     ret (offset_i, size_i, offset_j)) h = (Normal (oi, si, oj), h') /\
    0 <= oi /\ (i = 0 -> oi = 0) /\ 0 < si /\ oi + si <= oj /\
    lastMeasuredIndex (inst h') = Z.max (lastMeasuredIndex (inst h)) j.
Proof.
  intros Hpos Hwf Hij.
  destruct (getItemMetadata_spec props i h Hwf Hpos ltac:(lia))
    as (h1 & Hrun1 & Hext1 & HL1).
  destruct (getItemMetadata_spec props j h1 (proj1 Hext1) Hpos ltac:(lia))
    as (h2 & Hrun2 & Hext2 & HL2).
  rewrite (extends_metadataAt props h h1) in Hrun2 by (auto; lia).
  exists (offsetAt props (inst h) i), (sizeAt props (inst h) i),
         (offsetAt props (inst h) j), h2.
  split.
  { unfold bind at 1. unfold getItemOffset at 1. unfold bind at 1 2.
    rewrite Hrun1. cbn [defined ret].
    unfold bind at 1. rewrite getItemSize_run.
    rewrite (wf_lookup props) by (try apply Hext1; lia).
    rewrite (extends_metadataAt props h h1) by (auto; lia).
    unfold bind, getItemOffset, bind. rewrite Hrun2. reflexivity. }
  split.
  { rewrite <- (offsetAt_0 props (inst h)) at 1. apply offsetAt_le; auto; lia. }
  split; [intros ->; apply offsetAt_0 |].
  split; [apply sizeAt_pos; auto; lia |].
  split; [| lia].
  rewrite <- offsetAt_succ by lia. apply offsetAt_le; auto; lia.
Qed.

Lemma getItemOffset_getItemSize_ordered_witness :
  positiveSizes uniform25 /\ wf (inst fiveMeasured) /\ 0 <= 3 < 8 /\
  exists oi si oj h',
    (offset_i <- getItemOffset uniform25 3 ;;
     size_i <- getItemSize uniform25 3 ;;
     offset_j <- getItemOffset uniform25 8 ;;
     ret (offset_i, size_i, offset_j)) fiveMeasured
      = (Normal (oi, si, oj), h') /\
    0 <= oi /\ (3 = 0 -> oi = 0) /\ 0 < si /\ oi + si <= oj /\
    lastMeasuredIndex (inst h')
      = Z.max (lastMeasuredIndex (inst fiveMeasured)) 8.
Proof.
  split; [exact uniform25_positive |]. split; [exact fiveMeasured_wf |].
  split; [lia |].
  apply (getItemOffset_getItemSize_ordered uniform25 3 8 fiveMeasured);
    [exact uniform25_positive | exact fiveMeasured_wf | lia].
Defined.

(** ** The store's keys *)

Lemma reachable_no_negative_entries h :
  reachable h -> forall j, j < 0 -> itemMetadataMap (inst h) !! j = None.
Proof.
  induction 1 as [e | props c h Hr IH Hpos Hc]; intros j Hj.
  - apply lookup_empty.
  - pose proof (reachable_wf h Hr) as Hwf.
    assert (Hkeep : itemMetadataMap (inst (perform props c h)) !! j
                    = itemMetadataMap (inst h) !! j).
    { destruct c;
        try (match goal with
             | |- context [perform props ?c0 h] =>
                 destruct (perform_measuring props c0 h Hpos I Hwf)
                   as (_ & _ & _ & Hk & _)
             end; apply Hk; destruct Hwf; lia).
      reflexivity. }
    rewrite Hkeep. now apply IH.
Qed.

(** X16: the keys of the metadata map.  In every state reached from a fresh
    instance by measuring calls and by [resetAfterIndex] at indices of 0 or
    more, there is no entry at a negative index and there is one at every
    index from 0 to the watermark; in a state reached without invalidation
    those are all the entries there are.  (An invalidation at a negative
    index is outside this: the next measurement writes entries at negative
    indices.) *)
Theorem itemMetadataMap_keys h :
  reachable h ->
  (forall j, j < 0 -> itemMetadataMap (inst h) !! j = None) /\
  (forall j, 0 <= j <= lastMeasuredIndex (inst h) ->
     is_Some (itemMetadataMap (inst h) !! j)) /\
  (reachableByMeasuring h ->
   forall j, is_Some (itemMetadataMap (inst h) !! j)
             <-> 0 <= j <= lastMeasuredIndex (inst h)).
Proof.
  intros Hr. pose proof (reachable_wf h Hr) as Hwf.
  pose proof (reachable_no_negative_entries h Hr) as Hneg.
  assert (Hin : forall j, 0 <= j <= lastMeasuredIndex (inst h) ->
            is_Some (itemMetadataMap (inst h) !! j)).
  { intros j Hj. destruct (proj2 Hwf j Hj) as (m & Hm & _). now exists m. }
  split; [exact Hneg |]. split; [exact Hin |].
  intros Hm j. split; [| apply Hin].
  intros [m Hsome].
  destruct (Z_lt_le_dec j 0) as [Hj | Hj];
    [rewrite Hneg in Hsome by lia; discriminate |].
  destruct (Z_le_gt_dec j (lastMeasuredIndex (inst h))) as [| Hgt]; [lia |].
  rewrite (reachableByMeasuring_noStaleEntries h Hm j) in Hsome by lia.
  discriminate.
Qed.

Lemma itemMetadataMap_keys_witness :
  reachable fiveMeasured /\
  (forall j, j < 0 -> itemMetadataMap (inst fiveMeasured) !! j = None) /\
  (forall j, 0 <= j <= lastMeasuredIndex (inst fiveMeasured) ->
     is_Some (itemMetadataMap (inst fiveMeasured) !! j)) /\
  (reachableByMeasuring fiveMeasured ->
   forall j, is_Some (itemMetadataMap (inst fiveMeasured) !! j)
             <-> 0 <= j <= lastMeasuredIndex (inst fiveMeasured)).
Proof.
  split; [exact fiveMeasured_reachable |].
  apply (itemMetadataMap_keys fiveMeasured fiveMeasured_reachable).
Defined.

(** ** The older variant of resetAfterIndex *)

(** X17: the older variant's [resetAfterIndex], which assigns [index - 1]
    without the [Math.min].  At or below the watermark it does what the
    current one does.  Above the watermark of a store without stale entries it
    raises the watermark over items that were never measured: from then on
    [getItemMetadata] returns [undefined] for them without measuring, and
    [getEstimatedTotalSize] throws a [TypeError]. *)
Theorem older_resetAfterIndex_skips_unmeasured props index h :
  (index - 1 <= lastMeasuredIndex (inst h) ->
   OlderVariant.resetAfterIndex index h = resetAfterIndex index h) /\
  (noStaleEntries (inst h) -> lastMeasuredIndex (inst h) < index - 1 ->
   0 <= index - 1 ->
   let h0 := snd (OlderVariant.resetAfterIndex index h) in
   lastMeasuredIndex (inst h0) = index - 1 /\
   getEstimatedTotalSize props h0 = (Throw TypeError, h0) /\
   forall j, lastMeasuredIndex (inst h) < j <= index - 1 ->
     getItemMetadata props j h0 = (Normal None, h0)).
Proof.
  split.
  - intros Hle. unfold OlderVariant.resetAfterIndex, resetAfterIndex, bind,
      readLastMeasuredIndex, writeLastMeasuredIndex.
    now replace (Z.min (lastMeasuredIndex (inst h)) (index - 1))
      with (index - 1) by lia.
  - intros Hfresh Hgt H0 h0.
    assert (HL0 : lastMeasuredIndex (inst h0) = index - 1) by reflexivity.
    assert (Hmap0 : itemMetadataMap (inst h0) = itemMetadataMap (inst h))
      by reflexivity.
    split; [exact HL0 |]. split.
    + unfold getEstimatedTotalSize, bind at 1, readLastMeasuredIndex.
      unfold bind at 1. rewrite HL0.
      destruct (Z.geb_spec (index - 1) 0); [| lia].
      unfold bind, readEntry.
      replace (itemMetadataMap (inst h0) !! (index - 1))
        with (@None ItemMetadata); [reflexivity |].
      rewrite Hmap0. symmetry. apply Hfresh. lia.
    + intros j Hj. rewrite getItemMetadata_cached by lia.
      rewrite Hmap0. now rewrite Hfresh by lia.
Qed.

Lemma older_resetAfterIndex_skips_unmeasured_witness :
  (3 - 1 <= lastMeasuredIndex (inst fiveMeasured) /\
   OlderVariant.resetAfterIndex 3 fiveMeasured
     = resetAfterIndex 3 fiveMeasured) /\
  (noStaleEntries (inst fiveMeasured) /\
   lastMeasuredIndex (inst fiveMeasured) < 10 - 1 /\ 0 <= 10 - 1 /\
   let h0 := snd (OlderVariant.resetAfterIndex 10 fiveMeasured) in
   lastMeasuredIndex (inst h0) = 10 - 1 /\
   getEstimatedTotalSize uniform25 h0 = (Throw TypeError, h0) /\
   forall j, lastMeasuredIndex (inst fiveMeasured) < j <= 10 - 1 ->
     getItemMetadata uniform25 j h0 = (Normal None, h0)).
Proof.
  split.
  - split; [vm_compute; discriminate |].
    apply (proj1 (older_resetAfterIndex_skips_unmeasured
                    uniform25 3 fiveMeasured)).
    vm_compute; discriminate.
  - pose proof (reachableByMeasuring_noStaleEntries fiveMeasured
                  fiveMeasured_reachableByMeasuring) as Hfresh.
    split; [exact Hfresh |]. split; [vm_compute; reflexivity |].
    split; [lia |].
    apply (proj2 (older_resetAfterIndex_skips_unmeasured
                    uniform25 10 fiveMeasured));
      [exact Hfresh | vm_compute; reflexivity | lia].
Defined.

(** ** Validation and creation *)

(** X18: [validateProps] returns without a check when [NODE_ENV] is
    ['production']; otherwise it returns exactly when [itemSize] is a
    function, and throws an [Error] for every other value, whose message
    quotes the type of the value, [null] being reported as ["null"] and not
    as the ["object"] that [typeof] gives. *)
Theorem validateProps_accepts_functions_only NODE_ENV itemSize_ :
  (NODE_ENV = Some "production"%string ->
   validateProps NODE_ENV itemSize_ = Valid) /\
  (NODE_ENV <> Some "production"%string ->
   (validateProps NODE_ENV itemSize_ = Valid
    <-> exists f, itemSize_ = JSFunction f) /\
   ((forall f, itemSize_ <> JSFunction f) ->
    validateProps NODE_ENV itemSize_
    = ThrowsError
        ("An invalid " +:+ dquote +:+ "itemSize" +:+ dquote
         +:+ " prop has been specified. Value should be a function. "
         +:+ dquote
         +:+ (match itemSize_ with JSNull => "null" | v => typeof v end)
         +:+ dquote +:+ " was specified.")%string)).
Proof.
  split.
  - intros ->. reflexivity.
  - intros Henv.
    assert (Hgate : match NODE_ENV with
                    | Some env => String.eqb env "production"
                    | None => false
                    end = false).
    { destruct NODE_ENV as [env |]; [| reflexivity].
      destruct (String.eqb_spec env "production"); [congruence | reflexivity]. }
    unfold validateProps. rewrite Hgate. cbn [negb]. split.
    + destruct itemSize_; cbn; split; intros Hv;
        try discriminate; try (destruct Hv as [f Hf]; discriminate); eauto.
    + intros Hnf. destruct itemSize_; try reflexivity.
      exfalso. now apply (Hnf f).
Qed.

Lemma validateProps_accepts_functions_only_witness :
  (Some "production"%string = Some "production"%string /\
   validateProps (Some "production"%string) (JSNumber 123) = Valid) /\
  (Some "test"%string <> Some "production"%string /\
   (forall f, JSNumber 123 <> JSFunction f) /\
   validateProps (Some "test"%string) (JSNumber 123)
   = ThrowsError
       ("An invalid " +:+ dquote +:+ "itemSize" +:+ dquote
        +:+ " prop has been specified. Value should be a function. "
        +:+ dquote +:+ "number" +:+ dquote +:+ " was specified.")%string).
Proof.
  split.
  - split; [reflexivity |].
    apply (proj1 (validateProps_accepts_functions_only
                    (Some "production"%string) (JSNumber 123))).
    reflexivity.
  - split; [discriminate |]. split; [discriminate |].
    apply (proj2 (proj2 (validateProps_accepts_functions_only
                           (Some "test"%string) (JSNumber 123))
                        ltac:(discriminate))).
    discriminate.
Defined.

(** X19: a new instance.  Whatever [estimatedItemSize] prop is given, the
    instance properties start well formed, with nothing measured and an empty
    map; the estimate in force is the prop, or 50 when the prop is missing or
    0; the estimated total size is [itemCount] times that; the offset of
    item 0 is found for scroll offset 0 without any measurement; and reading
    the size of any item throws. *)
Theorem initInstanceProps_fresh props estimatedItemSizeProp :
  let h := initHeap estimatedItemSizeProp in
  let estimate := match estimatedItemSizeProp with
                  | Some 0 | None => 50
                  | Some e => e
                  end in
  wf (inst h) /\
  lastMeasuredIndex (inst h) = -1 /\
  itemMetadataMap (inst h) = ∅ /\
  estimatedItemSize (inst h) = estimate /\
  getEstimatedTotalSize props h = (Normal (itemCount props * estimate), h) /\
  getStartIndexForOffset props 0 h = (Normal 0, h) /\
  (forall index, getItemSize props index h = (Throw TypeError, h)).
Proof.
  intros h estimate. split; [apply wf_init |].
  split; [reflexivity |]. split; [reflexivity |].
  split; [subst h estimate; now destruct estimatedItemSizeProp as [[| |] |] |].
  split; [| split].
  - rewrite getEstimatedTotalSize_unmeasured by (cbn; lia).
    do 2 f_equal. subst h estimate.
    cbn [inst initHeap initInstanceProps lastMeasuredIndex estimatedItemSize].
    destruct estimatedItemSizeProp as [[| |] |];
      unfold DEFAULT_ESTIMATED_ITEM_SIZE; ring.
  - unfold getStartIndexForOffset, findNearestItem, bind,
      readLastMeasuredIndex. cbn [inst initHeap initInstanceProps
      lastMeasuredIndex Z.gtb Z.compare ret Z.geb].
    now simp findNearestItemBinarySearch.
  - intros index. rewrite getItemSize_run.
    replace (itemMetadataMap (inst h) !! index) with (@None ItemMetadata);
      [reflexivity | symmetry; apply lookup_empty].
Qed.

(** ** How far a search measures *)

Lemma exponentialProbe_watermark props index interval offset_ h :
  positiveSizes props -> wf (inst h) ->
  forall r h',
    exponentialProbe props index interval offset_ h = (Normal r, h') ->
    index <= r /\
    lastMeasuredIndex (inst h') <= Z.max (lastMeasuredIndex (inst h)) r.
Proof.
  funelim (exponentialProbe props index interval offset_ h);
    intros Hpos Hwf r h0 Hrun; try discriminate;
    try (injection Hrun as <- <-; lia).
  pose proof (getItemMetadata_watermark props index h Hwf) as HL.
  pose proof (continues_getItemMetadata props index Hpos h Hwf) as Hc.
  rewrite Heq in HL, Hc. cbn [snd] in HL, Hc.
  destruct (offset itemMetadata <? offset_).
  - destruct (H Hpos (proj1 Hc) r h0 Hrun) as [Hr HL']. lia.
  - injection Hrun as <- <-. lia.
Qed.

(** X20: a search measures at most about twice as far as it has to.  From a
    well-formed state with something measured, for an offset within the exact
    total size, [findNearestItem] returns the index [r] of the item that
    contains the offset and leaves a watermark that is at most the larger of
    the old watermark [L] and [2 r - L + 1], and never beyond the last
    item. *)
Theorem findNearestItem_measures_at_most_twice_as_far props offset_ h :
  positiveSizes props -> wf (inst h) ->
  0 <= lastMeasuredIndex (inst h) < itemCount props ->
  0 <= offset_ < offsetAt props (inst h) (itemCount props) ->
  exists r h',
    findNearestItem props offset_ h = (Normal r, h') /\
    offsetAt props (inst h) r <= offset_
      < offsetAt props (inst h) r + sizeAt props (inst h) r /\
    lastMeasuredIndex (inst h) <= lastMeasuredIndex (inst h') /\
    lastMeasuredIndex (inst h')
      <= Z.max (lastMeasuredIndex (inst h))
               (2 * r - lastMeasuredIndex (inst h) + 1) /\
    lastMeasuredIndex (inst h') <= itemCount props - 1.
Proof.
  intros Hpos Hwf HL Ho.
  destruct (findNearestItem_measured_run props offset_ h Hpos Hwf (proj1 HL)
              Ho) as (r & h' & Hrun & Hext & Hr & Hin).
  exists r, h'. split; [exact Hrun |]. split; [exact Hin |].
  split; [apply Hext |].
  pose proof (measuredUpTo_findNearestItem props offset_ h Hpos Hwf)
    as (_ & _ & Hb). rewrite Hrun in Hb. cbn [snd] in Hb.
  split; [| lia].
  unfold findNearestItem, bind at 1, readLastMeasuredIndex in Hrun.
  unfold bind at 1 in Hrun.
  rewrite (lastMeasuredItemOffset_run props h Hwf) in Hrun.
  destruct (Z.geb_spec (offsetAt props (inst h) (lastMeasuredIndex (inst h)))
              offset_) as [Hge | Hlt].
  - pose proof (binarySearch_cached props (lastMeasuredIndex (inst h)) 0
                  offset_ h ltac:(lia)) as Hsame.
    rewrite Hrun in Hsame. cbn [snd] in Hsame. subst h'. lia.
  - unfold findNearestItemExponentialSearch, bind in Hrun.
    destruct (exponentialProbe_spec props (lastMeasuredIndex (inst h)) 1
                offset_ h Hpos Hwf (proj1 HL) (lastMeasuredIndex (inst h))
                ltac:(lia))
      as (r1 & h1 & Hrun1 & Hext1 & Hstop & Hprev).
    rewrite Hrun1 in Hrun.
    destruct (exponentialProbe_watermark props _ _ _ h Hpos Hwf r1 h1 Hrun1)
      as [_ HL1].
    pose proof (measuredUpTo_binarySearch props
                  (Z.min r1 (itemCount props - 1))
                  (Z.min r1 (itemCount props - 1)) (r1 / 2) offset_ h1
                  Hpos (proj1 Hext1) ltac:(lia)) as (_ & _ & Hb2).
    rewrite Hrun in Hb2. cbn [snd] in Hb2.
    destruct Hprev as [Hr1 | (q & Hr1 & _ & Hqin & Hbelow)]; [lia |].
    assert (Hprevr : lastMeasuredIndex (inst h) + Z.pos q - 1 <= r).
    { destruct (Z_le_gt_dec (lastMeasuredIndex (inst h) + Z.pos q - 1) r)
        as [| Hgt]; [assumption |].
      pose proof (offsetAt_le props (inst h) (r + 1)
                    (lastMeasuredIndex (inst h) + Z.pos q - 1) Hwf Hpos).
      rewrite <- offsetAt_succ in Hin by lia. lia. }
    lia.
Qed.

Lemma findNearestItem_measures_at_most_twice_as_far_witness :
  positiveSizes uniform25 /\ wf (inst fiveMeasured) /\
  0 <= lastMeasuredIndex (inst fiveMeasured) < itemCount uniform25 /\
  0 <= 510 < offsetAt uniform25 (inst fiveMeasured) (itemCount uniform25) /\
  exists r h',
    findNearestItem uniform25 510 fiveMeasured = (Normal r, h') /\
    offsetAt uniform25 (inst fiveMeasured) r <= 510
      < offsetAt uniform25 (inst fiveMeasured) r
        + sizeAt uniform25 (inst fiveMeasured) r /\
    lastMeasuredIndex (inst fiveMeasured) <= lastMeasuredIndex (inst h') /\
    lastMeasuredIndex (inst h')
      <= Z.max (lastMeasuredIndex (inst fiveMeasured))
               (2 * r - lastMeasuredIndex (inst fiveMeasured) + 1) /\
    lastMeasuredIndex (inst h') <= itemCount uniform25 - 1.
Proof.
  split; [exact uniform25_positive |]. split; [exact fiveMeasured_wf |].
  split; [vm_compute; split; [discriminate | reflexivity] |].
  split; [vm_compute; split; [discriminate | reflexivity] |].
  apply (findNearestItem_measures_at_most_twice_as_far
           uniform25 510 fiveMeasured);
    [exact uniform25_positive | exact fiveMeasured_wf
    | vm_compute; split; [discriminate | reflexivity]
    | vm_compute; split; [discriminate | reflexivity]].
Defined.
